(** * Hammer & Dance: the SIR integrator and the phase controller

    A shallow embedding of [src/hammer_dance.py] (class [HammerDanceModel]):
    [sir_derivatives], [euler_step] and the driver loop of
    [simulate_dynamic_hammer_dance].

    Numbers.  The program computes with Python floats; here every number is an
    exact rational ([Q], compared with [==]), so the results below are about
    the exact arithmetic of the formulas, not about rounding.  Python's [/]
    raises [ZeroDivisionError] on a zero divisor: fallible functions return
    [option], [None] standing for that exception.

    Strings.  [current_phase] only ever holds ['dance'] or ['hammer'], and the
    second component of a transition point only ['dance_to_hammer'] or
    ['hammer_to_dance_threshold']; both are enumerations here.  The [print]
    calls of the loop write to the console only and are left out. *)

From Stdlib Require Import QArith Qround Qfield ZArith Lia Lqa Ascii.
From stdpp Require Import base option list.

Local Open Scope Q_scope.

(** ** Python arithmetic on exact numbers *)

(** [x / y]: raises on a zero divisor. *)
Definition py_div (x y : Q) : option Q :=
  if Qeq_bool y 0 then None else Some (x / y).

(** [int(x)]: truncation toward zero. *)
Definition py_int (x : Q) : Z := Z.quot (Qnum x) (Zpos (Qden x)).

(** [x < y] as a test. *)
Definition Qltb (x y : Q) : bool := negb (Qle_bool y x).

(** [range(n)] runs [n] times, and not at all for a negative [n]. *)
Definition range_len (n : Z) : nat := Z.to_nat n.

(** ** The model object *)

Record HammerDanceModel := {
  N : Q;
  S0 : Q;
  I0 : Q;
  R0 : Q;
  beta_hammer : Q;
  beta_dance : Q;
  gamma : Q
}.

(** [__init__] (lines 23-41). *)
Definition init (N I0 R0 beta_hammer beta_dance gamma : Q) : HammerDanceModel :=
  {| N := N;
     S0 := N - I0 - R0;
     I0 := I0;
     R0 := R0;
     beta_hammer := beta_hammer;
     beta_dance := beta_dance;
     gamma := gamma |}.

(** [sir_derivatives] (lines 43-65). *)
Definition sir_derivatives (self : HammerDanceModel) (S I R beta : Q)
  : option (Q * Q * Q) :=
  s ← py_div S (N self);
  i ← py_div I (N self);
  r ← py_div R (N self);
  let dsdt := - beta * s * i in
  let didt := beta * s * i - gamma self * i in
  let drdt := gamma self * i in
  let dSdt := dsdt * N self in
  let dIdt := didt * N self in
  let dRdt := drdt * N self in
  Some (dSdt, dIdt, dRdt).

(** [euler_step] (lines 67-75). *)
Definition euler_step (self : HammerDanceModel) (S I R beta dt : Q)
  : option (Q * Q * Q) :=
  '(dSdt, dIdt, dRdt) ← sir_derivatives self S I R beta;
  let S_new := S + dSdt * dt in
  let I_new := I + dIdt * dt in
  let R_new := R + dRdt * dt in
  Some (S_new, I_new, R_new).

(** ** The driver loop *)

Inductive phase := dance | hammer.

Inductive transition_kind := dance_to_hammer | hammer_to_dance_threshold.

Definition transition_point : Type := Q * transition_kind * Q.

(** The local variables of [simulate_dynamic_hammer_dance] that the loop
    reads or writes.  ([phase_duration] is assigned once and never used.) *)
Record locals := {
  t_list : list Q;
  S_list : list Q;
  I_list : list Q;
  R_list : list Q;
  phase_list : list phase;
  transition_points : list transition_point;
  S_var : Q;
  I_var : Q;
  R_var : Q;
  t_var : Q;
  current_phase : phase;
  phase_start_time : Q
}.

(** Lines 95-109: the state on entry to the loop. *)
Definition entry (self : HammerDanceModel) : locals :=
  {| t_list := [];
     S_list := [];
     I_list := [];
     R_list := [];
     phase_list := [];
     transition_points := [];
     S_var := S0 self;
     I_var := I0 self;
     R_var := R0 self;
     t_var := 0;
     current_phase := dance;
     phase_start_time := 0 |}.

(** Lines 112-116: one entry appended to each series. *)
Definition record_step (st : locals) : locals :=
  {| t_list := t_list st ++ [t_var st];
     S_list := S_list st ++ [S_var st];
     I_list := I_list st ++ [I_var st];
     R_list := R_list st ++ [R_var st];
     phase_list := phase_list st ++ [current_phase st];
     transition_points := transition_points st;
     S_var := S_var st;
     I_var := I_var st;
     R_var := R_var st;
     t_var := t_var st;
     current_phase := current_phase st;
     phase_start_time := phase_start_time st |}.

(** Lines 122-124 and 135-137: the three assignments of a phase switch. *)
Definition switch_phase (p : phase) (k : transition_kind) (st : locals) : locals :=
  {| t_list := t_list st;
     S_list := S_list st;
     I_list := I_list st;
     R_list := R_list st;
     phase_list := phase_list st;
     transition_points := transition_points st ++ [(t_var st, k, I_var st)];
     S_var := S_var st;
     I_var := I_var st;
     R_var := R_var st;
     t_var := t_var st;
     current_phase := p;
     phase_start_time := t_var st |}.

(** [S, I, R = ...] (lines 128 and 141). *)
Definition assign_SIR (x : Q * Q * Q) (st : locals) : locals :=
  {| t_list := t_list st;
     S_list := S_list st;
     I_list := I_list st;
     R_list := R_list st;
     phase_list := phase_list st;
     transition_points := transition_points st;
     S_var := x.1.1;
     I_var := x.1.2;
     R_var := x.2;
     t_var := t_var st;
     current_phase := current_phase st;
     phase_start_time := phase_start_time st |}.

(** [t += dt] (line 143). *)
Definition advance_t (dt : Q) (st : locals) : locals :=
  {| t_list := t_list st;
     S_list := S_list st;
     I_list := I_list st;
     R_list := R_list st;
     phase_list := phase_list st;
     transition_points := transition_points st;
     S_var := S_var st;
     I_var := I_var st;
     R_var := R_var st;
     t_var := t_var st + dt;
     current_phase := current_phase st;
     phase_start_time := phase_start_time st |}.

Section Run.

Variable self : HammerDanceModel.
Variables hammer_threshold dance_threshold dt : Q.

(** Lines 112-143: the loop body up to and including [t += dt]. *)
Definition loop_body (st : locals) : option locals :=
  let st := record_step st in
  st ←
    match current_phase st with
    | dance =>
        let st :=
          if Qltb hammer_threshold (I_var st)
          then switch_phase hammer dance_to_hammer st
          else st in
        x ← euler_step self (S_var st) (I_var st) (R_var st) (beta_dance self) dt;
        Some (assign_SIR x st)
    | hammer =>
        let st :=
          if Qltb (I_var st) dance_threshold
          then switch_phase dance hammer_to_dance_threshold st
          else st in
        x ← euler_step self (S_var st) (I_var st) (R_var st) (beta_hammer self) dt;
        Some (assign_SIR x st)
    end;
  Some (advance_t dt st).

(** Lines 111-148: [for step in range(steps)] with the [break] of line 148.
    The argument counts the iterations left. *)
Fixpoint for_loop (steps : nat) (st : locals) : option locals :=
  match steps with
  | O => Some st
  | S steps' =>
      st' ← loop_body st;
      if Qltb (I_var st') (1 # 10) then Some st' else for_loop steps' st'
  end.

End Run.

(** What the function returns (line 150). *)
Definition result : Type :=
  list Q * list Q * list Q * list Q * list phase * list transition_point.

Definition returned (st : locals) : result :=
  (t_list st, S_list st, I_list st, R_list st, phase_list st, transition_points st).

(** Line 92. *)
Definition step_budget (max_days dt : Q) : option nat :=
  q ← py_div max_days dt; Some (range_len (py_int q)).

(** The locals when the loop is left. *)
Definition final_locals (self : HammerDanceModel)
    (max_days hammer_threshold dance_threshold hammer_duration dance_duration dt : Q)
  : option locals :=
  steps ← step_budget max_days dt;
  for_loop self hammer_threshold dance_threshold dt steps (entry self).

(** [simulate_dynamic_hammer_dance] (lines 77-150). *)
Definition simulate_dynamic_hammer_dance (self : HammerDanceModel)
    (max_days hammer_threshold dance_threshold hammer_duration dance_duration dt : Q)
  : option result :=
  returned <$>
    final_locals self max_days hammer_threshold dance_threshold
                 hammer_duration dance_duration dt.

(** Lines 93-150, for the value [q] that the division [max_days / dt] of
    line 92 produces.  The program divides in binary64, so that value can
    differ from the exact quotient; the run depends on it only through [int(q)]. *)
Definition simulate_from_quotient (self : HammerDanceModel)
    (q hammer_threshold dance_threshold dt : Q) : option result :=
  match for_loop self hammer_threshold dance_threshold dt
                 (range_len (py_int q)) (entry self) with
  | Some st =>
      Some (t_list st, S_list st, I_list st, R_list st, phase_list st,
            transition_points st)
  | None => None
  end.

(** * Vocabulary of the properties *)

(** The rate that belongs to a phase label. *)
Definition rate (self : HammerDanceModel) (p : phase) : Q :=
  match p with
  | dance => beta_dance self
  | hammer => beta_hammer self
  end.

(** The events one iteration adds to the transition log. *)
Definition events (hammer_threshold dance_threshold : Q) (st : locals)
  : list transition_point :=
  match current_phase st with
  | dance =>
      if Qltb hammer_threshold (I_var st)
      then [(t_var st, dance_to_hammer, I_var st)] else []
  | hammer =>
      if Qltb (I_var st) dance_threshold
      then [(t_var st, hammer_to_dance_threshold, I_var st)] else []
  end.

(** The phase after the decision of one iteration. *)
Definition decided (hammer_threshold dance_threshold : Q) (st : locals) : phase :=
  match current_phase st with
  | dance => if Qltb hammer_threshold (I_var st) then hammer else dance
  | hammer => if Qltb (I_var st) dance_threshold then dance else hammer
  end.

(** ** The run, step by step *)

(** [run_to k st]: the loop has completed [k] iterations, none of the
    first [k - 1] hit the [break], and [st] holds the local variables at
    that point (the start of iteration [k], if there is one). *)
Inductive run_to (self : HammerDanceModel)
    (hammer_threshold dance_threshold dt : Q) : nat -> locals -> Prop :=
| run_entry : run_to self hammer_threshold dance_threshold dt 0 (entry self)
| run_next k st st' :
    run_to self hammer_threshold dance_threshold dt k st ->
    (k = 0%nat \/ 1 # 10 <= I_var st) ->
    loop_body self hammer_threshold dance_threshold dt st = Some st' ->
    run_to self hammer_threshold dance_threshold dt (S k) st'.

(** The entry of index [k] of each series holds the variables of [x]. *)
Definition recorded_at (st : locals) (k : nat) (x : locals) : Prop :=
  t_list st !! k = Some (t_var x) /\
  S_list st !! k = Some (S_var x) /\
  I_list st !! k = Some (I_var x) /\
  R_list st !! k = Some (R_var x) /\
  phase_list st !! k = Some (current_phase x).

Definition same_lengths (st : locals) (k : nat) : Prop :=
  length (t_list st) = k /\ length (S_list st) = k /\
  length (I_list st) = k /\ length (R_list st) = k /\
  length (phase_list st) = k.

(** ** Reading the transition log *)

(** The phase an event leaves and the phase it enters. *)
Definition kind_from (k : transition_kind) : phase :=
  match k with
  | dance_to_hammer => dance
  | hammer_to_dance_threshold => hammer
  end.

Definition kind_to (k : transition_kind) : phase :=
  match k with
  | dance_to_hammer => hammer
  | hammer_to_dance_threshold => dance
  end.

Definition phase_eqb (p q : phase) : bool :=
  match p, q with
  | dance, dance | hammer, hammer => true
  | _, _ => false
  end.

(** Replaying a log from a phase: every event has to leave the phase reached
    so far; the result is the phase after the last event. *)
Fixpoint replay (p : phase) (log : list transition_point) : option phase :=
  match log with
  | [] => Some p
  | (_, k, _) :: log' =>
      if phase_eqb (kind_from k) p then replay (kind_to k) log' else None
  end.

(** The threshold test an event of kind [k] has passed, on infected count [i]. *)
Definition crossed (hammer_threshold dance_threshold : Q)
    (k : transition_kind) (i : Q) : Prop :=
  match k with
  | dance_to_hammer => hammer_threshold < i
  | hammer_to_dance_threshold => i < dance_threshold
  end.

(** * The reporting functions

    [print_results] and [plot_text_graph] take the series as arguments and
    write to the console.  What is embedded of them is the computation of the
    values they print; a printed line is represented by the values it formats
    (the number formatting of Python's f-strings is not modelled), and a line
    of the text graph by its list of characters.  These functions can raise
    more than one kind of exception, so they return [exception + _]. *)

Inductive exception := ZeroDivisionError | ValueError | IndexError.

Global Instance exception_bind : MBind (sum exception) :=
  fun A B k m => match m with inl e => inl e | inr a => k a end.

(** [max(l)] and [min(l)]: the first largest (smallest) element; [ValueError]
    on an empty list. *)
Definition py_max (l : list Q) : exception + Q :=
  match l with
  | [] => inl ValueError
  | x :: l' => inr (fold_left (fun m y => if Qltb m y then y else m) l' x)
  end.

Definition py_min (l : list Q) : exception + Q :=
  match l with
  | [] => inl ValueError
  | x :: l' => inr (fold_left (fun m y => if Qltb y m then y else m) l' x)
  end.

(** [a // b] on integers: floor division. *)
Definition py_floordiv (a b : Z) : exception + Z :=
  if (b =? 0)%Z then inl ZeroDivisionError else inr (a / b)%Z.

(** [x / y], with the exception named. *)
Definition py_truediv (x y : Q) : exception + Q :=
  if Qeq_bool y 0 then inl ZeroDivisionError else inr (x / y).

(** [l[i]]: a negative index counts from the end; [IndexError] out of range. *)
Definition py_index {A : Type} (l : list A) (i : Z) : exception + A :=
  let j := if (i <? 0)%Z then (Z.of_nat (length l) + i)%Z else i in
  if (j <? 0)%Z then inl IndexError
  else match l !! Z.to_nat j with
       | Some x => inr x
       | None => inl IndexError
       end.

(** [l[a:b]]: negative bounds count from the end, and bounds are clipped. *)
Definition slice_bound (len i : Z) : Z :=
  if (i <? 0)%Z then Z.max 0 (len + i) else Z.min len i.

Definition py_slice {A : Type} (a b : Z) (l : list A) : list A :=
  let a' := slice_bound (Z.of_nat (length l)) a in
  let b' := slice_bound (Z.of_nat (length l)) b in
  take (Z.to_nat (b' - a')) (drop (Z.to_nat a') l).

(** [l[::step]] for a step of at least 1: the elements of index 0, step,
    2*step, ...  The second argument of [stride_from] counts the elements
    still to skip. *)
Fixpoint stride_from {A : Type} (step skip : nat) (l : list A) : list A :=
  match l with
  | [] => []
  | x :: l' =>
      match skip with
      | O => x :: stride_from step (step - 1) l'
      | S skip' => stride_from step skip' l'
      end
  end.

Definition py_stride {A : Type} (step : Z) (l : list A) : list A :=
  stride_from (Z.to_nat step) 0 l.

(** [l.index(x)]: the first index holding a value equal to [x]. *)
Fixpoint py_list_index (l : list Q) (x : Q) : exception + Z :=
  match l with
  | [] => inl ValueError
  | y :: l' =>
      if Qeq_bool y x then inr 0%Z
      else i ← py_list_index l' x; inr (i + 1)%Z
  end.

(** ** [plot_text_graph] (lines 218-256) *)

(** Lines 229-232: the row of each infected count. *)
Definition normalized (I : list Q) (max_I min_I : Q) (height : Z) : list Z :=
  if Qeq_bool max_I min_I
  then replicate (length I) (height / 2)%Z
  else (fun i => py_int ((i - min_I) / (max_I - min_I) * inject_Z (height - 1)))
         <$> I.

(** Line 235. *)
Definition display_step (t : list Q) (width : Z) : exception + Z :=
  q ← py_floordiv (Z.of_nat (length t)) width; inr (Z.max 1 q).

(** Lines 244-252: the character of one column in the line of [row]. *)
Definition cell (row norm_i : Z) (p : phase) : ascii :=
  if (norm_i =? row)%Z then
    match p with
    | hammer => "H"%char
    | dance => "D"%char
    end
  else if (norm_i >? row)%Z then "|"%char
  else " "%char.

(** Lines 242-252: the line of [row], over the zipped display lists. *)
Definition graph_line (row : Z) (display_t : list Q) (display_I : list Z)
    (display_phases : list phase) : list ascii :=
  (fun c => cell row c.1.2 c.2) <$> zip (zip display_t display_I) display_phases.

(** Lines 241-256: the rows from [height - 1] down to 0, each with the value
    of its label. *)
Fixpoint graph_rows (rows : list Z) (max_I min_I : Q) (height : Z)
    (display_t : list Q) (display_I : list Z) (display_phases : list phase)
  : exception + list (Q * list ascii) :=
  match rows with
  | [] => inr []
  | row :: rows' =>
      let line := graph_line row display_t display_I display_phases in
      d ← py_truediv ((max_I - min_I) * inject_Z row) (inject_Z (height - 1));
      let y_value := min_I + d in
      rest ← graph_rows rows' max_I min_I height
                        display_t display_I display_phases;
      inr ((y_value, line) :: rest)
  end.

(** Lines 225-256 of [plot_text_graph]: the labelled rows it prints. *)
Definition plot_text_graph (self : HammerDanceModel)
    (t S I R : list Q) (phases : list phase) (width height : Z)
  : exception + list (Q * list ascii) :=
  max_I ← py_max I;
  min_I ← py_min I;
  let normalized_I := normalized I max_I min_I height in
  step ← display_step t width;
  let display_t := py_stride step t in
  let display_I := py_stride step normalized_I in
  let display_phases := py_stride step phases in
  graph_rows (reverse (seqZ 0 height)) max_I min_I height
             display_t display_I display_phases.

(** ** [print_results] (lines 152-200) *)

(** The values printed for one cycle (lines 176-178): its number, its largest
    infected count and the infected count at its end. *)
Definition cycle_report : Type := Z * Q * Q.

(** Lines 169-178: one pass of the loop over the cycles. *)
Definition cycle_summary (t I : list Q) (cycle_steps cycle : Z)
  : exception + list cycle_report :=
  let start_idx := (cycle * cycle_steps)%Z in
  let end_idx := Z.min ((cycle + 1) * cycle_steps) (Z.of_nat (length t)) in
  if (end_idx <=? Z.of_nat (length I))%Z then
    cycle_max_I ← py_max (py_slice start_idx end_idx I);
    cycle_end_I ←
      (if (end_idx - 1 <? Z.of_nat (length I))%Z
       then py_index I (end_idx - 1)
       else py_index I (-1));
    inr [((cycle + 1)%Z, cycle_max_I, cycle_end_I)]
  else inr [].

(** Lines 168-178: the loop, over the values of [cycle]. *)
Fixpoint cycle_summaries (t I : list Q) (cycle_steps : Z) (cycles : list Z)
  : exception + list cycle_report :=
  match cycles with
  | [] => inr []
  | cycle :: cycles' =>
      r ← cycle_summary t I cycle_steps cycle;
      rest ← cycle_summaries t I cycle_steps cycles';
      inr (r ++ rest)
  end.

(** The values of lines 181-191. *)
Record statistics := {
  stat_max_I : Q;
  stat_max_I_day : Q;
  stat_final_S : Q;
  stat_final_I : Q;
  stat_final_R : Q;
  stat_max_I_ratio : Q;
  stat_final_S_ratio : Q;
  stat_final_I_ratio : Q;
  stat_final_R_ratio : Q
}.

(** Lines 181-191. *)
Definition overall_statistics (self : HammerDanceModel) (t S I R : list Q)
  : exception + statistics :=
  max_I ← py_max I;
  idx ← py_list_index I max_I;
  max_I_day ← py_index t idx;
  final_S ← py_index S (-1);
  final_I ← py_index I (-1);
  final_R ← py_index R (-1);
  max_I_ratio ← py_truediv max_I (N self);
  final_S_ratio ← py_truediv final_S (N self);
  final_I_ratio ← py_truediv final_I (N self);
  final_R_ratio ← py_truediv final_R (N self);
  inr {| stat_max_I := max_I;
         stat_max_I_day := max_I_day;
         stat_final_S := final_S;
         stat_final_I := final_I;
         stat_final_R := final_R;
         stat_max_I_ratio := max_I_ratio;
         stat_final_S_ratio := final_S_ratio;
         stat_final_I_ratio := final_I_ratio;
         stat_final_R_ratio := final_R_ratio |}.

(** [print_results]: the cycle reports and the overall statistics it prints. *)
Definition print_results (self : HammerDanceModel)
    (t S I R : list Q) (phases : list phase) (hammer_days dance_days : Q)
  : exception + (list cycle_report * statistics) :=
  let cycle_length := hammer_days + dance_days in
  let cycle_steps := py_int (cycle_length / (1 # 10)) in
  cycles ← py_floordiv (Z.of_nat (length t)) cycle_steps;
  reports ← cycle_summaries t I cycle_steps (seqZ 0 cycles);
  stats ← overall_statistics self t S I R;
  inr (reports, stats).

(** ** The exports ([save_csv_results], [create_excel_data],
       [create_html_graph]) *)

(** The values of one line written by [save_csv_results] (line 213). *)
Record csv_row := {
  csv_t : Q;
  csv_S : Q;
  csv_I : Q;
  csv_R : Q;
  csv_phase : phase;
  csv_s_ratio : Q;
  csv_i_ratio : Q;
  csv_r_ratio : Q
}.

(** Lines 210-213, for one index [i]. *)
Definition csv_row_at (self : HammerDanceModel)
    (t S I R : list Q) (phases : list phase) (i : Z) : exception + csv_row :=
  Si ← py_index S i;
  s_ratio ← py_truediv Si (N self);
  Ii ← py_index I i;
  i_ratio ← py_truediv Ii (N self);
  Ri ← py_index R i;
  r_ratio ← py_truediv Ri (N self);
  ti ← py_index t i;
  Si' ← py_index S i;
  Ii' ← py_index I i;
  Ri' ← py_index R i;
  p ← py_index phases i;
  inr {| csv_t := ti; csv_S := Si'; csv_I := Ii'; csv_R := Ri';
         csv_phase := p;
         csv_s_ratio := s_ratio; csv_i_ratio := i_ratio;
         csv_r_ratio := r_ratio |}.

(** The values of one line written by [create_excel_data] (line 418). *)
Definition excel_row : Type := Q * Q * Q * Q * phase.

Definition excel_row_at (t S I R : list Q) (phases : list phase) (i : Z)
  : exception + excel_row :=
  ti ← py_index t i;
  Si ← py_index S i;
  Ii ← py_index I i;
  Ri ← py_index R i;
  p ← py_index phases i;
  inr (ti, Si, Ii, Ri, p).

(** The loop of lines 209-213 (and 417-418) inside its [try]: the lines it
    writes after the header until an exception, and the exception the
    [except] clause reports, if any.  (Failures of the file system itself are
    not modelled.) *)
Fixpoint write_rows {A : Type} (row_at : Z -> exception + A) (indices : list Z)
  : list A * option exception :=
  match indices with
  | [] => ([], None)
  | i :: indices' =>
      match row_at i with
      | inl e => ([], Some e)
      | inr r =>
          let (rows, e) := write_rows row_at indices' in (r :: rows, e)
      end
  end.

Definition save_csv_results (self : HammerDanceModel)
    (t S I R : list Q) (phases : list phase)
  : list csv_row * option exception :=
  write_rows (csv_row_at self t S I R phases) (seqZ 0 (Z.of_nat (length t))).

Definition create_excel_data (self : HammerDanceModel)
    (t S I R : list Q) (phases : list phase)
  : list excel_row * option exception :=
  write_rows (excel_row_at t S I R phases) (seqZ 0 (Z.of_nat (length t))).



(** What a report says about the infected series. *)
Definition report_ok (t I : list Q) (cycle_steps : Z) (r : cycle_report) : Prop :=
  let num := r.1.1 in
  (1 <= num)%Z /\
  (num * cycle_steps <= Z.of_nat (length t))%Z /\
  (num * cycle_steps <= Z.of_nat (length I))%Z /\
  I !! Z.to_nat (num * cycle_steps - 1) = Some r.2 /\
  r.1.2 ∈ take (Z.to_nat cycle_steps)
             (drop (Z.to_nat ((num - 1) * cycle_steps)) I) /\
  forall y,
    y ∈ take (Z.to_nat cycle_steps)
          (drop (Z.to_nat ((num - 1) * cycle_steps)) I) ->
    y <= r.1.2.

(** ** Concrete instances *)

(** The fixture of the specification: N = 10000, gamma = 0.1, and the state
    S = 9000, I = 900, R = 100 with beta = 0.5. *)
Definition fixture : HammerDanceModel := init 10000 900 100 (1#10) (1#2) (1#10).

(** A run used as the concrete instance below: N = 1000 with 60 infected,
    thresholds 50 and 20, one-day steps. *)
Definition town : HammerDanceModel := init 1000 60 0 (1#10) (1#2) (1#10).

(** A model whose infection dies out on the first day. *)
Definition hamlet : HammerDanceModel := init 1000 1 0 (1#20) (1#10) 1.

(** Five points for the text graph. *)
Definition five_t : list Q := [0; 1; 2; 3; 4].
Definition five_I : list Q := [10; 20; 40; 30; 10].
Definition five_phases : list phase := [dance; dance; hammer; hammer; dance].

(** The rows of the graph of the five points, 80 columns wide, 5 rows high. *)
Definition five_rows : list (Q * list ascii) :=
  Eval vm_compute in
    match plot_text_graph town five_t [] five_I [] five_phases 80 5 with
    | inr rows => rows
    | inl _ => []
    end.

(** The results of three short runs, computed once. *)
Definition town_two_days : option result :=
  Eval vm_compute in simulate_dynamic_hammer_dance town 2 50 20 30 20 1.

Definition hamlet_end : locals :=
  Eval vm_compute in default (entry hamlet) (for_loop hamlet 50 20 1 1 (entry hamlet)).

Definition town_end : locals :=
  Eval vm_compute in default (entry town) (final_locals town 2 50 20 30 20 1).

(** * Properties *)

(** ** Arithmetic helpers *)

Lemma Qltb_lt (x y : Q) : Qltb x y = true <-> x < y.
Proof.
  unfold Qltb. rewrite negb_true_iff, <- not_true_iff_false, Qle_bool_iff.
  split; [apply Qnot_le_lt | apply Qlt_not_le].
Qed.

Lemma Qltb_ge (x y : Q) : Qltb x y = false <-> y <= x.
Proof.
  unfold Qltb. rewrite negb_false_iff. apply Qle_bool_iff.
Qed.

Lemma py_div_Some (x y : Q) : ~ y == 0 -> py_div x y = Some (x / y).
Proof.
  intros Hy. unfold py_div.
  destruct (Qeq_bool y 0) eqn:E; [| reflexivity].
  apply Qeq_bool_iff in E. contradiction.
Qed.

Lemma py_div_None (x y : Q) : y == 0 -> py_div x y = None.
Proof.
  intros Hy. unfold py_div. apply Qeq_bool_iff in Hy. now rewrite Hy.
Qed.

Lemma py_int_floor (x : Q) : 0 <= x -> py_int x = Qfloor x.
Proof.
  destruct x as [n d]. unfold Qle, py_int, Qfloor. simpl. intros Hn.
  apply Z.quot_div_nonneg; lia.
Qed.

(** ** The integrator *)

Lemma sir_derivatives_Some (self : HammerDanceModel) (S I R beta : Q) :
  ~ N self == 0 ->
  sir_derivatives self S I R beta =
    Some (- beta * (S / N self) * (I / N self) * N self,
          (beta * (S / N self) * (I / N self) - gamma self * (I / N self)) * N self,
          gamma self * (I / N self) * N self).
Proof.
  intros HN. unfold sir_derivatives.
  rewrite !py_div_Some by exact HN. reflexivity.
Qed.

Lemma sir_derivatives_None (self : HammerDanceModel) (S I R beta : Q) :
  N self == 0 -> sir_derivatives self S I R beta = None.
Proof.
  intros HN. unfold sir_derivatives.
  rewrite (py_div_None S) by exact HN. reflexivity.
Qed.

Lemma euler_step_Some (self : HammerDanceModel) (S I R beta dt : Q) :
  ~ N self == 0 ->
  euler_step self S I R beta dt =
    Some (S + - beta * (S / N self) * (I / N self) * N self * dt,
          I + (beta * (S / N self) * (I / N self) - gamma self * (I / N self)) * N self * dt,
          R + gamma self * (I / N self) * N self * dt).
Proof.
  intros HN. unfold euler_step.
  rewrite sir_derivatives_Some by exact HN. reflexivity.
Qed.

Lemma euler_step_None (self : HammerDanceModel) (S I R beta dt : Q) :
  N self == 0 -> euler_step self S I R beta dt = None.
Proof.
  intros HN. unfold euler_step.
  rewrite sir_derivatives_None by exact HN. reflexivity.
Qed.

Lemma euler_step_inv (self : HammerDanceModel) (S I R beta dt : Q) (x : Q * Q * Q) :
  euler_step self S I R beta dt = Some x -> ~ N self == 0.
Proof.
  intros H HN. rewrite euler_step_None in H by exact HN. discriminate.
Qed.

(** C2: with N > 0, [sir_derivatives] returns the triple
    (-beta*(S/N)*(I/N)*N, beta*(S/N)*(I/N)*N - gamma*I, gamma*I), as exact
    rational numbers. *)
Theorem sir_derivatives_formula (self : HammerDanceModel) (S I R beta : Q) :
  0 < N self ->
  exists dS dI dR : Q,
    sir_derivatives self S I R beta = Some (dS, dI, dR) /\
    dS == - (beta * (S / N self) * (I / N self) * N self) /\
    dI == beta * (S / N self) * (I / N self) * N self - gamma self * I /\
    dR == gamma self * I.
Proof.
  intros HN.
  assert (HN0 : ~ N self == 0) by (intros E; rewrite E in HN; exact (Qlt_irrefl 0 HN)).
  eexists _, _, _. split; [apply sir_derivatives_Some, HN0 |].
  repeat split; field; exact HN0.
Qed.

Lemma sir_derivatives_formula_witness :
  0 < N (init 1000 10 0 (1#10) (1#2) (1#10)) /\
  exists dS dI dR : Q,
    sir_derivatives (init 1000 10 0 (1#10) (1#2) (1#10)) 990 10 0 (1#2)
      = Some (dS, dI, dR) /\
    dS == - ((1#2) * (990 / 1000) * (10 / 1000) * 1000) /\
    dI == (1#2) * (990 / 1000) * (10 / 1000) * 1000 - (1#10) * 10 /\
    dR == (1#10) * 10.
Proof.
  split; [reflexivity |].
  apply (sir_derivatives_formula (init 1000 10 0 (1#10) (1#2) (1#10)) 990 10 0 (1#2)).
  reflexivity.
Defined.

(** C5, as stated, fails: the second component is not 360. *)
Lemma sir_derivatives_fixture_not_360 :
  ~ (exists dS dI dR : Q,
       sir_derivatives fixture 9000 900 100 (1#2) = Some (dS, dI, dR) /\
       dS == -405 /\ dI == 360 /\ dR == 90).
Proof.
  intros (dS & dI & dR & H & _ & HI & _).
  vm_compute in H. injection H as _ <- _. vm_compute in HI. discriminate.
Qed.

(** C5 (amended): at S = 9000, I = 900, R = 100 with N = 10000, beta = 0.5 and
    gamma = 0.1, [sir_derivatives] returns dS = -405, dI = 315, dR = 90,
    whatever the other parameters of the model. *)
Theorem sir_derivatives_fixture (I0 R0 beta_hammer beta_dance : Q) :
  exists dS dI dR : Q,
    sir_derivatives (init 10000 I0 R0 beta_hammer beta_dance (1#10))
                    9000 900 100 (1#2) = Some (dS, dI, dR) /\
    dS == -405 /\ dI == 315 /\ dR == 90.
Proof.
  eexists _, _, _. split; [apply sir_derivatives_Some; discriminate |].
  simpl. repeat split; reflexivity.
Qed.

(** ** One iteration of the loop *)

(** The four paths through lines 119-141: the phase on entry and the outcome
    of its threshold test. *)
Ltac decision_cases st hi lo :=
  destruct (current_phase st) eqn:?;
  [destruct (Qltb hi (I_var st)) eqn:? | destruct (Qltb (I_var st) lo) eqn:?].

Section RunFacts.

Variable self : HammerDanceModel.
Variables hammer_threshold dance_threshold dt : Q.

Abbreviation body := (loop_body self hammer_threshold dance_threshold dt).
Abbreviation loop := (for_loop self hammer_threshold dance_threshold dt).
Abbreviation reach := (run_to self hammer_threshold dance_threshold dt).

Lemma loop_body_spec (st st' : locals) :
  body st = Some st' ->
  euler_step self (S_var st) (I_var st) (R_var st)
             (rate self (current_phase st)) dt
    = Some (S_var st', I_var st', R_var st') /\
  t_var st' = t_var st + dt /\
  current_phase st' = decided hammer_threshold dance_threshold st /\
  t_list st' = t_list st ++ [t_var st] /\
  S_list st' = S_list st ++ [S_var st] /\
  I_list st' = I_list st ++ [I_var st] /\
  R_list st' = R_list st ++ [R_var st] /\
  phase_list st' = phase_list st ++ [current_phase st] /\
  transition_points st' =
    transition_points st ++ events hammer_threshold dance_threshold st.
Proof.
  unfold loop_body, decided, events, rate. cbn.
  decision_cases st hammer_threshold dance_threshold; simpl;
    (destruct (euler_step _ _ _ _ _ _) as [[[S' I'] R']|]; simpl;
     [| discriminate]);
    intros [= <-]; simpl;
    repeat match goal with E : current_phase st = _ |- _ => rewrite E end;
    rewrite ?app_nil_r; repeat split; reflexivity.
Qed.

Lemma loop_body_total (st : locals) :
  ~ N self == 0 -> exists st', body st = Some st'.
Proof.
  intros HN. unfold loop_body. simpl.
  decision_cases st hammer_threshold dance_threshold; simpl;
    rewrite euler_step_Some by exact HN; simpl; eauto.
Qed.

Lemma loop_body_None (st : locals) : N self == 0 -> body st = None.
Proof.
  intros HN. unfold loop_body. simpl.
  decision_cases st hammer_threshold dance_threshold; simpl;
    rewrite euler_step_None by exact HN; reflexivity.
Qed.

Lemma run_to_fun k st1 st2 : reach k st1 -> reach k st2 -> st1 = st2.
Proof.
  intros H1. revert st2.
  induction H1 as [|k st st' _ IH _ Hb]; intros st2 H2.
  - inversion H2; reflexivity.
  - inversion H2 as [|k' sta stb Ha _ Hb' Ek]; subst.
    apply IH in Ha. subst sta. congruence.
Qed.

Lemma run_to_inv k st' :
  reach (S k) st' ->
  exists st, reach k st /\ (k = 0%nat \/ 1 # 10 <= I_var st) /\
             body st = Some st'.
Proof. inversion 1; eauto. Qed.

Lemma run_to_lengths k st : reach k st -> same_lengths st k.
Proof.
  induction 1 as [|k st st' _ IH _ Hb].
  - repeat split.
  - apply loop_body_spec in Hb.
    destruct Hb as (_ & _ & _ & Ht & HS & HI & HR & Hp & _).
    destruct IH as (L1 & L2 & L3 & L4 & L5).
    unfold same_lengths.
    rewrite Ht, HS, HI, HR, Hp, !length_app, L1, L2, L3, L4, L5. simpl.
    repeat split; lia.
Qed.

Lemma body_records k st st' :
  same_lengths st k -> body st = Some st' -> recorded_at st' k st.
Proof.
  intros (L1 & L2 & L3 & L4 & L5) Hb. apply loop_body_spec in Hb.
  destruct Hb as (_ & _ & _ & Ht & HS & HI & HR & Hp & _).
  unfold recorded_at. rewrite Ht, HS, HI, HR, Hp.
  rewrite <- L1 at 1. rewrite <- L2 at 1. rewrite <- L3 at 1.
  rewrite <- L4 at 1. rewrite <- L5.
  repeat split; apply list_lookup_middle; reflexivity.
Qed.

Lemma body_keeps st st' j x :
  body st = Some st' -> recorded_at st j x -> recorded_at st' j x.
Proof.
  intros Hb (H1 & H2 & H3 & H4 & H5). apply loop_body_spec in Hb.
  destruct Hb as (_ & _ & _ & Ht & HS & HI & HR & Hp & _).
  unfold recorded_at. rewrite Ht, HS, HI, HR, Hp.
  repeat split; apply lookup_app_l_Some; assumption.
Qed.

(** Every recorded entry is the state at the start of its step, a step is
    only started from a state that passed the test of line 146, and the
    transition log only grows. *)
Lemma run_to_history k st :
  reach k st ->
  forall j, (j < k)%nat ->
    exists st_j, reach j st_j /\ recorded_at st j st_j /\
                 (j = 0%nat \/ 1 # 10 <= I_var st_j) /\
                 transition_points st_j `prefix_of` transition_points st.
Proof.
  induction 1 as [|k st st' Hr IH Hne Hb]; intros j Hj; [lia |].
  assert (Hp : transition_points st `prefix_of` transition_points st').
  { apply loop_body_spec in Hb.
    destruct Hb as (_ & _ & _ & _ & _ & _ & _ & _ & ->). apply prefix_app_r.
    reflexivity. }
  destruct (decide (j = k)) as [-> | Hjk].
  - refine (ex_intro _ st (conj Hr (conj _ (conj Hne Hp)))).
    eapply body_records; [apply run_to_lengths, Hr | exact Hb].
  - destruct (IH j) as (st_j & Hrj & Hrec & Hc & Hpj); [lia |].
    refine (ex_intro _ st_j (conj Hrj (conj _ (conj Hc _)))).
    + eapply body_keeps; eassumption.
    + by etrans.
Qed.

(** Two consecutive entries of the series are linked by one loop body. *)
Lemma run_to_consecutive k st j :
  reach k st -> (S j < k)%nat ->
  exists a b, reach j a /\ reach (S j) b /\ body a = Some b /\
              recorded_at st j a /\ recorded_at st (S j) b.
Proof.
  intros Hr Hj.
  destruct (run_to_history _ _ Hr j) as (a & Ha & Hra & _); [lia |].
  destruct (run_to_history _ _ Hr (S j)) as (b & Hb & Hrb & _); [lia |].
  destruct (run_to_inv _ _ Hb) as (a' & Ha' & _ & Hbody).
  rewrite (run_to_fun _ _ _ Ha' Ha) in Hbody. eauto 10.
Qed.

(** The last entry of the series and the variables the loop is left with. *)
Lemma run_to_last k st :
  reach (S k) st ->
  exists a, reach k a /\ body a = Some st /\ recorded_at st k a.
Proof.
  intros Hr.
  destruct (run_to_history _ _ Hr k) as (a & Ha & Hra & _); [lia |].
  destruct (run_to_inv _ _ Hr) as (a' & Ha' & _ & Hbody).
  rewrite (run_to_fun _ _ _ Ha' Ha) in Hbody. eauto.
Qed.

(** The loop stops where the step relation says it does. *)
Lemma for_loop_run_to n :
  forall k st0 st,
    reach k st0 -> (k = 0%nat \/ 1 # 10 <= I_var st0) ->
    loop n st0 = Some st ->
    exists j, (j <= n)%nat /\ reach (k + j) st /\
              ((j < n)%nat -> (1 <= j)%nat /\ I_var st < 1 # 10).
Proof.
  induction n as [|n IH]; intros k st0 st Hr Hne Hl; simpl in Hl.
  - injection Hl as <-. exists 0%nat. rewrite Nat.add_0_r.
    repeat split; [lia | exact Hr | lia | lia].
  - destruct (body st0) as [st1|] eqn:Hb; simpl in Hl; [| discriminate].
    assert (Hr1 : reach (S k) st1) by (eapply run_next; eassumption).
    destruct (Qltb (I_var st1) (1 # 10)) eqn:Hx.
    + injection Hl as <-. exists 1%nat. rewrite Nat.add_1_r.
      repeat split; [lia | exact Hr1 | lia | now apply Qltb_lt].
    + apply Qltb_ge in Hx.
      destruct (IH (S k) st1 st Hr1 (or_intror Hx) Hl) as (j & Hj & Hrj & Hs).
      exists (S j). rewrite Nat.add_succ_r.
      repeat split; [lia | exact Hrj | lia | apply Hs; lia].
Qed.

Lemma run_to_continue k st :
  reach k st ->
  forall m st_f,
    (k = 0%nat \/ 1 # 10 <= I_var st) ->
    loop m st = Some st_f ->
    loop (k + m) (entry self) = Some st_f.
Proof.
  induction 1 as [|k st st' Hr IH Hne Hb]; intros m st_f Hc Hl.
  - exact Hl.
  - destruct Hc as [Hc | Hc]; [discriminate |].
    replace (S k + m)%nat with (k + S m)%nat by lia.
    apply IH; [exact Hne |]. simpl. rewrite Hb. simpl.
    apply Qltb_ge in Hc. rewrite Hc. exact Hl.
Qed.

Lemma run_to_for_loop k st :
  reach k st ->
  forall n, (k <= n)%nat ->
    ((k < n)%nat -> (1 <= k)%nat /\ I_var st < 1 # 10) ->
    loop n (entry self) = Some st.
Proof.
  intros Hr n Hn Hs. destruct k as [|k].
  - assert (n = 0%nat) as -> by (destruct n; [reflexivity | destruct Hs; lia]).
    inversion Hr. reflexivity.
  - apply run_to_inv in Hr. destruct Hr as (st0 & Hr0 & Hc & Hb).
    replace n with (k + S (n - S k))%nat by lia.
    apply (run_to_continue _ _ Hr0); [exact Hc |]. simpl. rewrite Hb. simpl.
    destruct (Qltb (I_var st) (1 # 10)) eqn:Hx; [reflexivity |].
    apply Qltb_ge in Hx.
    destruct (n - S k)%nat as [|m] eqn:Hm; [reflexivity |].
    destruct Hs as [_ Hlt]; [lia |].
    exfalso. exact (Qlt_not_le _ _ Hlt Hx).
Qed.

(** The state after [k] unbroken iterations is what the loop returns on a
    budget of [k]. *)
Lemma run_to_exact k st : reach k st -> loop k (entry self) = Some st.
Proof. intros Hr. apply (run_to_for_loop _ _ Hr); lia. Qed.

Lemma for_loop_entry n st :
  loop n (entry self) = Some st ->
  exists k, (k <= n)%nat /\ reach k st /\
            ((k < n)%nat -> (1 <= k)%nat /\ I_var st < 1 # 10).
Proof.
  intros Hl.
  apply (for_loop_run_to n 0 _ _ (run_entry _ _ _ _) (or_introl eq_refl) Hl).
Qed.

Lemma for_loop_total n st : ~ N self == 0 -> exists st', loop n st = Some st'.
Proof.
  intros HN. revert st. induction n as [|n IH]; intros st; simpl; [eauto |].
  destruct (loop_body_total st HN) as [st1 ->]. simpl.
  destruct (Qltb (I_var st1) (1 # 10)); eauto.
Qed.

(** One Euler step moves population between compartments only. *)
Lemma euler_step_sum (S I R beta h S' I' R' : Q) :
  euler_step self S I R beta h = Some (S', I', R') ->
  S' + I' + R' == S + I + R.
Proof.
  intros H. pose proof (euler_step_inv _ _ _ _ _ _ _ H) as HN.
  rewrite euler_step_Some in H by exact HN. injection H as <- <- <-. ring.
Qed.

Lemma run_to_sum k st :
  S0 self + I0 self + R0 self == N self ->
  reach k st ->
  S_var st + I_var st + R_var st == N self.
Proof.
  intros H0. induction 1 as [|k st st' _ IH _ Hb]; [exact H0 |].
  apply loop_body_spec in Hb. destruct Hb as (He & _).
  apply euler_step_sum in He. rewrite He. exact IH.
Qed.

(** Simulated time is the number of completed iterations times dt. *)
Lemma run_to_time k st : reach k st -> t_var st == inject_Z (Z.of_nat k) * dt.
Proof.
  induction 1 as [|k st st' _ IH _ Hb]; [simpl; ring |].
  apply loop_body_spec in Hb. destruct Hb as (_ & -> & _).
  rewrite IH, Nat2Z.inj_succ. unfold Z.succ. rewrite inject_Z_plus. ring.
Qed.

End RunFacts.

(** ** The function as a whole *)

Lemma step_budget_Some (max_days dt : Q) :
  ~ dt == 0 ->
  step_budget max_days dt = Some (range_len (py_int (max_days / dt))).
Proof.
  intros Hdt. unfold step_budget. rewrite py_div_Some by exact Hdt. reflexivity.
Qed.

Lemma final_locals_inv (self : HammerDanceModel)
    (max_days hammer_threshold dance_threshold hammer_duration dance_duration dt : Q)
    (st : locals) :
  final_locals self max_days hammer_threshold dance_threshold
               hammer_duration dance_duration dt = Some st ->
  exists steps,
    step_budget max_days dt = Some steps /\
    for_loop self hammer_threshold dance_threshold dt steps (entry self) = Some st.
Proof.
  unfold final_locals. destruct (step_budget max_days dt) as [steps|]; simpl.
  - intros H. exists steps. split; [reflexivity | exact H].
  - discriminate.
Qed.

Lemma simulate_inv (self : HammerDanceModel)
    (max_days hammer_threshold dance_threshold hammer_duration dance_duration dt : Q)
    (r : result) :
  simulate_dynamic_hammer_dance self max_days hammer_threshold dance_threshold
                                hammer_duration dance_duration dt = Some r ->
  exists st,
    final_locals self max_days hammer_threshold dance_threshold
                 hammer_duration dance_duration dt = Some st /\
    r = returned st.
Proof.
  unfold simulate_dynamic_hammer_dance.
  destruct (final_locals _ _ _ _ _ _ _) as [st|]; simpl.
  - intros [= <-]. exists st. split; reflexivity.
  - discriminate.
Qed.

(** ** The rate of a step *)

(** C1, as stated, fails: on the step that switches from dance to hammer the
    next state is not the one the hammer rate gives. *)
Lemma switching_step_not_new_rate :
  exists st' x,
    loop_body town 50 20 1 (entry town) = Some st' /\
    current_phase (entry town) = dance /\
    current_phase st' = hammer /\
    euler_step town (S_var (entry town)) (I_var (entry town)) (R_var (entry town))
               (beta_hammer town) 1 = Some x /\
    ~ (S_var st', I_var st', R_var st') = x /\
    ~ I_var st' == x.1.2.
Proof.
  eexists _, _.
  split; [vm_compute; reflexivity |].
  split; [reflexivity |].
  split; [reflexivity |].
  split; [vm_compute; reflexivity |].
  split; [discriminate |].
  vm_compute. discriminate.
Qed.

(** C1 (amended): the rate fed to the Euler integrator on a step is the rate
    of the phase carried into the step, before the decision: beta_dance from
    dance, beta_hammer from hammer.  On a step that switches, the state is
    still advanced with the rate of the phase that is left. *)
Theorem step_rate_is_carried_phase_rate
    (self : HammerDanceModel) (hammer_threshold dance_threshold dt : Q)
    (st : locals) :
  ~ N self == 0 ->
  exists st',
    loop_body self hammer_threshold dance_threshold dt st = Some st' /\
    match current_phase st with
    | dance =>
        euler_step self (S_var st) (I_var st) (R_var st) (beta_dance self) dt
          = Some (S_var st', I_var st', R_var st')
    | hammer =>
        euler_step self (S_var st) (I_var st) (R_var st) (beta_hammer self) dt
          = Some (S_var st', I_var st', R_var st')
    end.
Proof.
  intros HN.
  destruct (loop_body_total self hammer_threshold dance_threshold dt st HN)
    as [st' Hb].
  exists st'. split; [exact Hb |].
  apply loop_body_spec in Hb. destruct Hb as (He & _).
  destruct (current_phase st); exact He.
Qed.

Lemma step_rate_is_carried_phase_rate_witness :
  ~ N town == 0 /\
  exists st',
    loop_body town 50 20 1 (entry town) = Some st' /\
    euler_step town (S_var (entry town)) (I_var (entry town)) (R_var (entry town))
               (beta_dance town) 1
      = Some (S_var st', I_var st', R_var st').
Proof.
  split; [discriminate |].
  apply (step_rate_is_carried_phase_rate town 50 20 1 (entry town)).
  discriminate.
Defined.

(** ** The phase machine *)

Lemma decided_dance (hammer_threshold dance_threshold : Q) (st : locals) :
  current_phase st = dance ->
  (decided hammer_threshold dance_threshold st = hammer
     <-> hammer_threshold < I_var st) /\
  (decided hammer_threshold dance_threshold st = dance
     <-> I_var st <= hammer_threshold).
Proof.
  intros E. unfold decided. rewrite E.
  destruct (Qltb hammer_threshold (I_var st)) eqn:Hc.
  - apply Qltb_lt in Hc. repeat split; try done.
    intros Hle. exfalso. exact (Qlt_not_le _ _ Hc Hle).
  - apply Qltb_ge in Hc. repeat split; try done.
    intros Hlt. exfalso. exact (Qlt_not_le _ _ Hlt Hc).
Qed.

Lemma decided_hammer (hammer_threshold dance_threshold : Q) (st : locals) :
  current_phase st = hammer ->
  (decided hammer_threshold dance_threshold st = dance
     <-> I_var st < dance_threshold) /\
  (decided hammer_threshold dance_threshold st = hammer
     <-> dance_threshold <= I_var st).
Proof.
  intros E. unfold decided. rewrite E.
  destruct (Qltb (I_var st) dance_threshold) eqn:Hc.
  - apply Qltb_lt in Hc. repeat split; try done.
    intros Hle. exfalso. exact (Qlt_not_le _ _ Hc Hle).
  - apply Qltb_ge in Hc. repeat split; try done.
    intros Hlt. exfalso. exact (Qlt_not_le _ _ Hlt Hc).
Qed.

(** C4: the phase starts as dance.  On every step, from dance the phase
    becomes hammer exactly when the infected count carried into the step
    exceeds hammer_threshold (and stays dance otherwise); from hammer it
    becomes dance exactly when that count is below dance_threshold (and stays
    hammer otherwise).  Hence in the recorded series a hammer label is followed
    by a dance label only where the recorded infected count is below
    dance_threshold, and a dance label by a hammer label only where it exceeds
    hammer_threshold. *)
Theorem phase_machine
    (self : HammerDanceModel) (hammer_threshold dance_threshold dt : Q) :
  current_phase (entry self) = dance /\
  (forall st st',
      loop_body self hammer_threshold dance_threshold dt st = Some st' ->
      match current_phase st with
      | dance =>
          (current_phase st' = hammer <-> hammer_threshold < I_var st) /\
          (current_phase st' = dance <-> I_var st <= hammer_threshold)
      | hammer =>
          (current_phase st' = dance <-> I_var st < dance_threshold) /\
          (current_phase st' = hammer <-> dance_threshold <= I_var st)
      end) /\
  (forall steps st,
      for_loop self hammer_threshold dance_threshold dt steps (entry self)
        = Some st ->
      (forall p, phase_list st !! 0%nat = Some p -> p = dance) /\
      (forall k p q i,
          phase_list st !! k = Some p ->
          phase_list st !! S k = Some q ->
          I_list st !! k = Some i ->
          match p with
          | dance =>
              (q = hammer <-> hammer_threshold < i) /\
              (q = dance <-> i <= hammer_threshold)
          | hammer =>
              (q = dance <-> i < dance_threshold) /\
              (q = hammer <-> dance_threshold <= i)
          end)).
Proof.
  split; [reflexivity |]. split.
  - intros st st' Hb. apply loop_body_spec in Hb.
    destruct Hb as (_ & _ & -> & _).
    destruct (current_phase st) eqn:E;
      [apply decided_dance | apply decided_hammer]; exact E.
  - intros steps st Hl.
    destruct (for_loop_entry _ _ _ _ _ _ Hl) as (m & _ & Hr & _).
    pose proof (run_to_lengths _ _ _ _ _ _ Hr) as (_ & _ & _ & _ & Lp).
    split.
    + intros p Hp.
      assert (Hm : (0 < m)%nat) by (apply lookup_lt_Some in Hp; lia).
      destruct (run_to_history _ _ _ _ _ _ Hr 0%nat Hm)
        as (a & Ha & (_ & _ & _ & _ & Hpa) & _).
      inversion Ha; subst a. rewrite Hpa in Hp. injection Hp as <-. reflexivity.
    + intros k p q i Hp Hq Hi.
      assert (Hm : (S k < m)%nat) by (apply lookup_lt_Some in Hq; lia).
      destruct (run_to_consecutive _ _ _ _ _ _ k Hr Hm)
        as (a & b & _ & _ & Hb & (_ & _ & Hia & _ & Hpa) & (_ & _ & _ & _ & Hpb)).
      rewrite Hpa in Hp. injection Hp as <-.
      rewrite Hpb in Hq. injection Hq as <-.
      rewrite Hia in Hi. injection Hi as <-.
      apply loop_body_spec in Hb. destruct Hb as (_ & _ & -> & _).
      destruct (current_phase a) eqn:E;
        [apply decided_dance | apply decided_hammer]; exact E.
Qed.

(** An instance: the first step of [town] leaves dance because 60 > 50. *)
Lemma phase_machine_witness :
  exists st',
    loop_body town 50 20 1 (entry town) = Some st' /\
    (current_phase st' = hammer <-> 50 < I_var (entry town)).
Proof.
  destruct (loop_body_total town 50 20 1 (entry town)) as [st' Hb];
    [discriminate |].
  exists st'. split; [exact Hb |].
  destruct (phase_machine town 50 20 1) as (_ & Hstep & _).
  exact (proj1 (Hstep _ _ Hb)).
Defined.

(** ** The transition log *)

(** C8: a step that changes the phase appends exactly one event to the
    transition log, holding the time at the start of the step and the infected
    count before the integration; a step that keeps the phase appends nothing;
    and over a run the log is only ever extended at its end. *)
Theorem transition_log
    (self : HammerDanceModel) (hammer_threshold dance_threshold dt : Q) :
  (forall st st',
      loop_body self hammer_threshold dance_threshold dt st = Some st' ->
      match current_phase st, current_phase st' with
      | dance, hammer =>
          transition_points st' =
            transition_points st ++ [(t_var st, dance_to_hammer, I_var st)]
      | hammer, dance =>
          transition_points st' =
            transition_points st ++
              [(t_var st, hammer_to_dance_threshold, I_var st)]
      | dance, dance | hammer, hammer =>
          transition_points st' = transition_points st
      end) /\
  transition_points (entry self) = [] /\
  (forall n m st st',
      (n <= m)%nat ->
      for_loop self hammer_threshold dance_threshold dt n (entry self) = Some st ->
      for_loop self hammer_threshold dance_threshold dt m (entry self) = Some st' ->
      transition_points st `prefix_of` transition_points st').
Proof.
  split; [| split; [reflexivity |]].
  - intros st st' Hb. apply loop_body_spec in Hb.
    destruct Hb as (_ & _ & -> & _ & _ & _ & _ & _ & ->).
    unfold decided, events.
    decision_cases st hammer_threshold dance_threshold;
      rewrite ?app_nil_r; reflexivity.
  - intros n m st st' Hnm Hn Hm.
    destruct (for_loop_entry _ _ _ _ _ _ Hn) as (k & Hkn & Hk & Hstop).
    destruct (for_loop_entry _ _ _ _ _ _ Hm) as (k' & Hkm & Hk' & Hstop').
    destruct (Nat.lt_trichotomy k k') as [Hlt | [-> | Hgt]].
    + destruct (run_to_history _ _ _ _ _ _ Hk' k Hlt) as (a & Ha & _ & _ & Hp).
      rewrite (run_to_fun _ _ _ _ _ _ _ Hk Ha). exact Hp.
    + rewrite (run_to_fun _ _ _ _ _ _ _ Hk Hk'). reflexivity.
    + destruct (run_to_history _ _ _ _ _ _ Hk k' Hgt) as (a & Ha & _ & Hc & _).
      rewrite (run_to_fun _ _ _ _ _ _ _ Ha Hk') in Hc.
      destruct Hstop' as [H1 Hx]; [lia |].
      destruct Hc as [-> | Hc]; [lia |].
      exfalso. exact (Qlt_not_le _ _ Hx Hc).
Qed.

(** An instance: the switching first step of [town] logs (0, dance_to_hammer, 60). *)
Lemma transition_log_witness :
  exists st',
    loop_body town 50 20 1 (entry town) = Some st' /\
    transition_points st' = [(0, dance_to_hammer, 60)].
Proof.
  destruct (transition_log town 50 20 1) as (Hstep & _ & _).
  eexists. split; [vm_compute; reflexivity |].
  exact (Hstep (entry town) _ eq_refl).
Defined.

(** ** Totality *)

(** With a non-zero population and a non-zero step size no division fails,
    and the function returns. *)
Lemma simulate_total (self : HammerDanceModel)
    (max_days hammer_threshold dance_threshold hammer_duration dance_duration dt : Q) :
  ~ N self == 0 -> ~ dt == 0 ->
  exists st,
    final_locals self max_days hammer_threshold dance_threshold
                 hammer_duration dance_duration dt = Some st /\
    simulate_dynamic_hammer_dance self max_days hammer_threshold dance_threshold
                                  hammer_duration dance_duration dt
      = Some (returned st).
Proof.
  intros HN Hdt.
  unfold simulate_dynamic_hammer_dance, final_locals.
  rewrite step_budget_Some by exact Hdt. simpl.
  destruct (for_loop_total self hammer_threshold dance_threshold dt
              (range_len (py_int (max_days / dt))) (entry self) HN) as [st ->].
  exists st. split; reflexivity.
Qed.

(** ** Conservation of the population *)

(** C3: [euler_step] preserves S + I + R, for every state, rate and step
    size; and in every run of a model built by [__init__], every recorded
    entry satisfies S_k + I_k + R_k = N (as exact numbers). *)
Theorem population_conserved :
  (forall (self : HammerDanceModel) (S I R beta dt S' I' R' : Q),
      euler_step self S I R beta dt = Some (S', I', R') ->
      S' + I' + R' == S + I + R) /\
  (forall (N I0 R0 beta_hammer beta_dance gamma : Q)
          (max_days hammer_threshold dance_threshold : Q)
          (hammer_duration dance_duration dt : Q)
          (ts Ss Is Rs : list Q) (ps : list phase) (tps : list transition_point),
      simulate_dynamic_hammer_dance
        (init N I0 R0 beta_hammer beta_dance gamma)
        max_days hammer_threshold dance_threshold
        hammer_duration dance_duration dt
        = Some (ts, Ss, Is, Rs, ps, tps) ->
      forall (k : nat) (S I R : Q),
        Ss !! k = Some S -> Is !! k = Some I -> Rs !! k = Some R ->
        S + I + R == N).
Proof.
  split; [exact euler_step_sum |].
  intros N I0 R0 bh bd g max_days ht dth hd dd dt ts Ss Is Rs ps tps Hsim
         k S I R HS HI HR.
  apply simulate_inv in Hsim. destruct Hsim as (st & Hf & Hr).
  injection Hr as -> -> -> -> -> ->.
  apply final_locals_inv in Hf. destruct Hf as (steps & _ & Hl).
  destruct (for_loop_entry _ _ _ _ _ _ Hl) as (m & _ & Hrun & _).
  pose proof (run_to_lengths _ _ _ _ _ _ Hrun) as (_ & LS & _).
  assert (Hk : (k < m)%nat) by (apply lookup_lt_Some in HS; lia).
  destruct (run_to_history _ _ _ _ _ _ Hrun k Hk)
    as (a & Ha & (_ & HSa & HIa & HRa & _) & _).
  rewrite HSa in HS. injection HS as <-.
  rewrite HIa in HI. injection HI as <-.
  rewrite HRa in HR. injection HR as <-.
  apply (run_to_sum _ _ _ _ _ _) in Ha; [exact Ha |]. simpl. ring.
Qed.

(** An instance: the second entry of a two-day run of [town]. *)
Lemma population_conserved_witness :
  simulate_dynamic_hammer_dance town 2 50 20 30 20 1 = town_two_days /\
  exists ts Ss Is Rs ps tps,
    town_two_days = Some (ts, Ss, Is, Rs, ps, tps) /\
    exists S I R : Q,
      Ss !! 1%nat = Some S /\ Is !! 1%nat = Some I /\ Rs !! 1%nat = Some R /\
      S + I + R == 1000.
Proof.
  assert (H : simulate_dynamic_hammer_dance town 2 50 20 30 20 1 = town_two_days)
    by (vm_compute; reflexivity).
  split; [exact H |].
  eexists _, _, _, _, _, _. split; [reflexivity |].
  eexists _, _, _. split; [reflexivity |]. split; [reflexivity |].
  split; [reflexivity |].
  apply (proj2 population_conserved 1000 60 0 (1#10) (1#2) (1#10)
           2 50 20 30 20 1 _ _ _ _ _ _ H 1%nat); reflexivity.
Defined.

(** ** Termination on the step budget *)

Lemma step_budget_floor (max_days dt : Q) :
  0 < dt -> 0 <= max_days ->
  exists steps : nat,
    step_budget max_days dt = Some steps /\
    Z.of_nat steps = Qfloor (max_days / dt).
Proof.
  intros Hdt Hmax.
  assert (Hdt0 : ~ dt == 0).
  { intros E. rewrite E in Hdt. exact (Qlt_irrefl 0 Hdt). }
  assert (Hq : 0 <= max_days / dt).
  { apply Qle_shift_div_l; [exact Hdt |]. rewrite Qmult_0_l. exact Hmax. }
  exists (range_len (py_int (max_days / dt))).
  split; [apply step_budget_Some, Hdt0 |].
  unfold range_len. rewrite py_int_floor by exact Hq.
  apply Z2Nat.id. change 0%Z with (Qfloor 0). apply Qfloor_resp_le, Hq.
Qed.

(** The function is the run from the quotient of line 92. *)
Lemma simulate_by_quotient (self : HammerDanceModel)
    (max_days hammer_threshold dance_threshold hammer_duration dance_duration dt : Q) :
  ~ dt == 0 ->
  simulate_dynamic_hammer_dance self max_days hammer_threshold dance_threshold
                                hammer_duration dance_duration dt
    = simulate_from_quotient self (max_days / dt)
                             hammer_threshold dance_threshold dt.
Proof.
  intros Hdt.
  unfold simulate_dynamic_hammer_dance, final_locals, simulate_from_quotient.
  rewrite step_budget_Some by exact Hdt. simpl.
  destruct (for_loop _ _ _ _ _ _); reflexivity.
Qed.

Lemma simulate_from_quotient_inv (self : HammerDanceModel)
    (q hammer_threshold dance_threshold dt : Q)
    (ts Ss Is Rs : list Q) (ps : list phase) (tps : list transition_point) :
  simulate_from_quotient self q hammer_threshold dance_threshold dt
    = Some (ts, Ss, Is, Rs, ps, tps) ->
  exists st,
    for_loop self hammer_threshold dance_threshold dt
             (range_len (py_int q)) (entry self) = Some st /\
    ts = t_list st /\ Ss = S_list st /\ Is = I_list st /\
    Rs = R_list st /\ ps = phase_list st /\ tps = transition_points st.
Proof.
  unfold simulate_from_quotient.
  destruct (for_loop _ _ _ _ _ _) as [st|]; [| discriminate].
  intros [= <- <- <- <- <- <-]. exists st. repeat split; reflexivity.
Qed.

(** [int(q)] is at most 0 for a negative [q]. *)
Lemma py_int_negative (q : Q) : q < 0 -> (py_int q <= 0)%Z.
Proof.
  destruct q as [n d]. unfold Qlt, py_int. simpl. rewrite Z.mul_1_r.
  intros Hn. apply Z.quot_le_upper_bound; lia.
Qed.

Lemma floor_ge_iff (z : Z) (q : Q) : (z <= Qfloor q)%Z <-> inject_Z z <= q.
Proof.
  split; intros H.
  - apply Qle_trans with (inject_Z (Qfloor q)); [| apply Qfloor_le].
    rewrite <- Zle_Qle. exact H.
  - rewrite <- (Qfloor_Z z). apply Qfloor_resp_le, H.
Qed.

(** How many whole steps a quotient leaves: [j] is below the budget exactly
    when [j + 1 <= q]. *)
Lemma budget_lt_iff (q : Q) (j : nat) :
  (j < range_len (py_int q))%nat <-> inject_Z (Z.of_nat j) + 1 <= q.
Proof.
  unfold range_len.
  assert (E : inject_Z (Z.of_nat j) + 1 == inject_Z (Z.of_nat j + 1)).
  { rewrite inject_Z_plus. reflexivity. }
  rewrite E, <- floor_ge_iff.
  destruct (Qlt_le_dec q 0) as [Hneg | Hpos].
  - pose proof (py_int_negative q Hneg) as Hi.
    assert (Hf : (Qfloor q <= 0)%Z).
    { change 0%Z with (Qfloor 0). apply Qfloor_resp_le, Qlt_le_weak, Hneg. }
    split; intros H; lia.
  - rewrite py_int_floor by exact Hpos. lia.
Qed.

(** C7, as stated, fails for a negative horizon: with max_days = -1 and dt = 1
    the floor of the quotient is -1, while the loop, which cannot run a
    negative number of times, runs and records 0 times. *)
Lemma negative_horizon_not_floor :
  0 < 1 /\
  simulate_dynamic_hammer_dance town (-1) 50 20 30 20 1
    = Some ([], [], [], [], [], []) /\
  Qfloor (-1 / 1) = (-1)%Z /\
  ~ (Z.of_nat (length (@nil Q)) <= Qfloor (-1 / 1))%Z /\
  Z.of_nat (length (@nil Q)) <> Qfloor (-1 / 1).
Proof.
  split; [reflexivity |]. split; [reflexivity |]. split; [reflexivity |].
  split; vm_compute; [intros H; apply H; reflexivity | discriminate].
Qed.

(** C7 (amended): with dt > 0 the function is the run from the quotient
    max_days/dt.  For whatever value q line 92 computes for that quotient, the
    loop performs at most max(0, int(q)) iterations, each series it returns
    has one entry per iteration, and when the infected count never drops below
    0.1 during the run each of the five series has exactly max(0, int(q))
    entries.  int(q) is the floor of q for q >= 0, hence floor(max_days/dt)
    for max_days >= 0 when the division is exact; for q < 0 nothing is
    recorded.  With N <> 0 the function returns. *)
Theorem budget_termination_of_quotient (self : HammerDanceModel)
    (max_days hammer_threshold dance_threshold hammer_duration dance_duration dt : Q) :
  0 < dt ->
  simulate_dynamic_hammer_dance self max_days hammer_threshold dance_threshold
                                hammer_duration dance_duration dt
    = simulate_from_quotient self (max_days / dt)
                             hammer_threshold dance_threshold dt /\
  (0 <= max_days ->
   Z.of_nat (range_len (py_int (max_days / dt))) = Qfloor (max_days / dt)) /\
  forall q : Q,
    Z.of_nat (range_len (py_int q)) = Z.max 0 (py_int q) /\
    (0 <= q -> py_int q = Qfloor q) /\
    (q < 0 -> range_len (py_int q) = 0%nat) /\
    (forall ts Ss Is Rs ps tps,
        simulate_from_quotient self q hammer_threshold dance_threshold dt
          = Some (ts, Ss, Is, Rs, ps, tps) ->
        (length ts <= range_len (py_int q))%nat /\
        length Ss = length ts /\ length Is = length ts /\
        length Rs = length ts /\ length ps = length ts /\
        ((forall k st_k,
             (1 <= k <= range_len (py_int q))%nat ->
             for_loop self hammer_threshold dance_threshold dt k (entry self)
               = Some st_k ->
             1 # 10 <= I_var st_k) ->
         length ts = range_len (py_int q))) /\
    (~ N self == 0 ->
     exists r,
       simulate_from_quotient self q hammer_threshold dance_threshold dt
         = Some r).
Proof.
  intros Hdt.
  assert (Hdt0 : ~ dt == 0).
  { intros E. rewrite E in Hdt. exact (Qlt_irrefl 0 Hdt). }
  split; [apply simulate_by_quotient, Hdt0 |].
  split.
  { intros Hmax.
    destruct (step_budget_floor max_days dt Hdt Hmax) as (steps & Hsb & Hfl).
    rewrite step_budget_Some in Hsb by exact Hdt0. injection Hsb as <-.
    exact Hfl. }
  intros q.
  split; [unfold range_len; lia |].
  split; [apply py_int_floor |].
  split.
  { intros Hq. pose proof (py_int_negative q Hq). unfold range_len. lia. }
  split.
  - intros ts Ss Is Rs ps tps Hsim.
    apply simulate_from_quotient_inv in Hsim.
    destruct Hsim as (st & Hl & -> & -> & -> & -> & -> & ->).
    destruct (for_loop_entry _ _ _ _ _ _ Hl) as (m & Hm & Hrun & Hstop).
    pose proof (run_to_lengths _ _ _ _ _ _ Hrun) as (Lt & LS & LI & LR & Lp).
    rewrite Lt, LS, LI, LR, Lp.
    split; [exact Hm |]. repeat (split; [reflexivity |]).
    intros Hnever.
    destruct (decide (m = range_len (py_int q))) as [E | Hne]; [exact E |].
    destruct Hstop as [H1 Hx]; [lia |].
    apply run_to_exact in Hrun.
    specialize (Hnever m st (conj H1 Hm) Hrun).
    exfalso. exact (Qlt_not_le _ _ Hx Hnever).
  - intros HN. unfold simulate_from_quotient.
    destruct (for_loop_total self hammer_threshold dance_threshold dt
                (range_len (py_int q)) (entry self) HN) as [st ->].
    eauto.
Qed.

(** An instance: two days of [town] in one-day steps.  The infected count
    stays above 0.1 on both steps, so each series has exactly two entries. *)
Lemma budget_termination_of_quotient_witness :
  0 < 1 /\
  simulate_dynamic_hammer_dance town 2 50 20 30 20 1 = town_two_days /\
  exists ts Ss Is Rs ps tps,
    town_two_days = Some (ts, Ss, Is, Rs, ps, tps) /\
    length ts = 2%nat /\ length Ss = 2%nat /\ length Is = 2%nat /\
    length Rs = 2%nat /\ length ps = 2%nat /\
    Z.of_nat (length ts) = Qfloor (2 / 1).
Proof.
  assert (Hdt : 0 < 1) by reflexivity.
  split; [exact Hdt |].
  assert (H : simulate_dynamic_hammer_dance town 2 50 20 30 20 1 = town_two_days)
    by (vm_compute; reflexivity).
  split; [exact H |].
  destruct (budget_termination_of_quotient town 2 50 20 30 20 1 Hdt)
    as (Hlink & _ & Hq).
  destruct (Hq (2 / 1)) as (_ & _ & _ & Hret & _).
  rewrite Hlink in H.
  eexists _, _, _, _, _, _. split; [reflexivity |].
  destruct (Hret _ _ _ _ _ _ H) as (_ & LS & LI & LR & Lp & Hexact).
  assert (Hlen : length (A:=Q) [0; 1] = range_len (py_int (2 / 1))).
  { apply Hexact. intros k st_k Hk Hl.
    assert (Hk' : k = 1%nat \/ k = 2%nat) by (vm_compute in Hk; lia).
    destruct Hk' as [-> | ->]; vm_compute in Hl; injection Hl as <-;
      vm_compute; discriminate. }
  split; [rewrite Hlen; reflexivity |].
  split; [rewrite LS, Hlen; reflexivity |].
  split; [rewrite LI, Hlen; reflexivity |].
  split; [rewrite LR, Hlen; reflexivity |].
  split; [rewrite Lp, Hlen; reflexivity |].
  rewrite Hlen. reflexivity.
Defined.

(** ** Termination on extinction *)

(** C6, as stated, fails: for [hamlet] with max_days = 1.5 and dt = 1 the
    infected count drops below 0.1 at time 1, before max_days elapses, yet the
    run has used its whole budget of one step: it does not stop strictly
    before the budget is exhausted. *)
Lemma extinction_on_last_step :
  step_budget (3 # 2) 1 = Some 1%nat /\
  final_locals hamlet (3 # 2) 50 20 30 20 1 = Some hamlet_end /\
  I_var hamlet_end < 1 # 10 /\
  t_var hamlet_end < 3 # 2 /\
  ~ (length (t_list hamlet_end) < 1)%nat.
Proof.
  split; [reflexivity |].
  split; [vm_compute; reflexivity |].
  split; [reflexivity |]. split; [reflexivity |].
  vm_compute. lia.
Qed.

(** C6 (amended): if after an iteration within the budget the infected count
    computed by the integration is below 0.1, the loop is left there, whatever
    budget remains: the function returns the series recorded so far, and the
    infected count it ends with is the one below 0.1 that the last integration
    produced (the test follows the integration and precedes the next look at
    the budget).  If k is the first such iteration, exactly k entries are
    recorded.  The run ends strictly before the budget int(q), q = max_days/dt,
    is exhausted exactly when q >= entries + 1, that is when the drop is not on
    the last step of the budget. *)
Theorem extinction_stops_at_once (self : HammerDanceModel)
    (q hammer_threshold dance_threshold dt : Q) (k : nat) (st : locals) :
  (1 <= k <= range_len (py_int q))%nat ->
  for_loop self hammer_threshold dance_threshold dt k (entry self) = Some st ->
  I_var st < 1 # 10 ->
  simulate_from_quotient self q hammer_threshold dance_threshold dt
    = Some (t_list st, S_list st, I_list st, R_list st, phase_list st,
            transition_points st) /\
  (forall max_days hammer_duration dance_duration,
      ~ dt == 0 -> max_days / dt == q ->
      simulate_dynamic_hammer_dance self max_days hammer_threshold
        dance_threshold hammer_duration dance_duration dt
      = Some (t_list st, S_list st, I_list st, R_list st, phase_list st,
              transition_points st)) /\
  (forall n, (length (t_list st) <= n)%nat ->
     for_loop self hammer_threshold dance_threshold dt n (entry self)
       = Some st) /\
  same_lengths st (length (t_list st)) /\
  (1 <= length (t_list st) <= k)%nat /\
  (exists prev,
      loop_body self hammer_threshold dance_threshold dt prev = Some st /\
      recorded_at st (length (t_list st) - 1) prev) /\
  ((forall j st_j,
       (1 <= j < k)%nat ->
       for_loop self hammer_threshold dance_threshold dt j (entry self)
         = Some st_j ->
       1 # 10 <= I_var st_j) ->
   length (t_list st) = k) /\
  ((length (t_list st) < range_len (py_int q))%nat
     <-> inject_Z (Z.of_nat (length (t_list st))) + 1 <= q).
Proof.
  intros Hk Hl Hx.
  destruct (for_loop_entry _ _ _ _ _ _ Hl) as (m & Hm & Hrun & Hstop).
  assert (H1 : (1 <= m)%nat).
  { destruct (decide (m = k)) as [-> | Hne]; [lia |]. apply Hstop. lia. }
  assert (Hany : forall n, (m <= n)%nat ->
            for_loop self hammer_threshold dance_threshold dt n (entry self)
              = Some st).
  { intros n Hn. apply (run_to_for_loop _ _ _ _ _ _ Hrun); [exact Hn |].
    intros _. split; assumption. }
  pose proof (run_to_lengths _ _ _ _ _ _ Hrun) as HL.
  pose proof HL as (Lt & _). rewrite Lt.
  assert (Hsim : simulate_from_quotient self q hammer_threshold
                   dance_threshold dt
                 = Some (t_list st, S_list st, I_list st, R_list st,
                         phase_list st, transition_points st)).
  { unfold simulate_from_quotient. rewrite Hany by lia. reflexivity. }
  split; [exact Hsim |]. split.
  { intros max_days hd dd Hdt Hq.
    rewrite simulate_by_quotient by exact Hdt.
    unfold simulate_from_quotient.
    assert (E : py_int (max_days / dt) = py_int q).
    { assert (Hq1 : 1 <= q).
      { apply (budget_lt_iff q 0). lia. }
      rewrite !py_int_floor by (try rewrite Hq; lra).
      rewrite Hq. reflexivity. }
    rewrite E, Hany by lia. reflexivity. }
  split; [exact Hany |]. split; [exact HL |]. split; [lia |]. split.
  - destruct m as [|m']; [lia |].
    destruct (run_to_last _ _ _ _ _ _ Hrun) as (prev & _ & Hb & Hrec).
    exists prev. replace (S m' - 1)%nat with m' by lia. split; assumption.
  - split; [| apply budget_lt_iff].
    intros Hfirst. destruct (decide (m = k)) as [E | Hne]; [exact E |].
    apply run_to_exact in Hrun.
    assert (Hge : 1 # 10 <= I_var st) by (apply (Hfirst m st); [lia | exact Hrun]).
    exfalso. exact (Qlt_not_le _ _ Hx Hge).
Qed.

(** Two instances on [hamlet], whose infection dies out on the first day:
    over ten days the run stops with one entry, short of the budget; over a
    day and a half it stops with one entry, which is the whole budget. *)
Lemma extinction_stops_at_once_witness :
  for_loop hamlet 50 20 1 1 (entry hamlet) = Some hamlet_end /\
  I_var hamlet_end < 1 # 10 /\
  simulate_dynamic_hammer_dance hamlet 10 50 20 30 20 1
    = Some (t_list hamlet_end, S_list hamlet_end, I_list hamlet_end,
            R_list hamlet_end, phase_list hamlet_end,
            transition_points hamlet_end) /\
  length (t_list hamlet_end) = 1%nat /\
  (length (t_list hamlet_end) < range_len (py_int 10))%nat /\
  ~ (length (t_list hamlet_end) < range_len (py_int (3 # 2)))%nat.
Proof.
  assert (Hl : for_loop hamlet 50 20 1 1 (entry hamlet) = Some hamlet_end)
    by (vm_compute; reflexivity).
  assert (Hx : I_var hamlet_end < 1 # 10) by reflexivity.
  assert (Hk : (1 <= 1 <= range_len (py_int 10))%nat) by (vm_compute; lia).
  assert (Hk' : (1 <= 1 <= range_len (py_int (3 # 2)))%nat) by (vm_compute; lia).
  pose proof (extinction_stops_at_once hamlet 10 50 20 1 1 hamlet_end Hk Hl Hx)
    as (_ & Hfun & _ & _ & _ & _ & Hfirst & Hiff).
  pose proof (extinction_stops_at_once hamlet (3 # 2) 50 20 1 1 hamlet_end
                Hk' Hl Hx) as (_ & _ & _ & _ & _ & _ & _ & Hiff').
  split; [exact Hl |]. split; [exact Hx |].
  split; [apply Hfun; [discriminate | reflexivity] |].
  split; [apply Hfirst; intros j st_j Hj; lia |].
  split; [apply Hiff; vm_compute; discriminate |].
  intros Hlt. apply Hiff' in Hlt. vm_compute in Hlt. apply Hlt. reflexivity.
Defined.

(** ** What the series record *)

(** C9: in the series of a run, the phase label at index k is the phase the
    loop carried into step k, before that step's decision, and the state that
    follows the entry of index k (the next entry, or the variables the loop
    ends with) is the Euler step of that entry at beta_dance when the label is
    dance and at beta_hammer when it is hammer, also on the steps that
    switch. *)
Theorem recorded_phase_matches_rate (self : HammerDanceModel)
    (max_days hammer_threshold dance_threshold hammer_duration dance_duration dt : Q)
    (st : locals) :
  final_locals self max_days hammer_threshold dance_threshold
               hammer_duration dance_duration dt = Some st ->
  forall (k : nat) (p : phase),
    phase_list st !! k = Some p ->
    exists (st_k : locals) (Sk Ik Rk Sk' Ik' Rk' : Q),
      for_loop self hammer_threshold dance_threshold dt k (entry self)
        = Some st_k /\
      current_phase st_k = p /\
      S_list st !! k = Some Sk /\
      I_list st !! k = Some Ik /\
      R_list st !! k = Some Rk /\
      (S_list st ++ [S_var st]) !! S k = Some Sk' /\
      (I_list st ++ [I_var st]) !! S k = Some Ik' /\
      (R_list st ++ [R_var st]) !! S k = Some Rk' /\
      euler_step self Sk Ik Rk
        (match p with
         | dance => beta_dance self
         | hammer => beta_hammer self
         end) dt = Some (Sk', Ik', Rk').
Proof.
  intros Hf k p Hp.
  apply final_locals_inv in Hf. destruct Hf as (steps & _ & Hl).
  destruct (for_loop_entry _ _ _ _ _ _ Hl) as (m & _ & Hrun & _).
  pose proof (run_to_lengths _ _ _ _ _ _ Hrun) as (_ & LS & LI & LR & Lp).
  assert (Hk : (k < m)%nat) by (apply lookup_lt_Some in Hp; lia).
  destruct (decide (S k = m)) as [<- | Hne].
  - destruct (run_to_last _ _ _ _ _ _ Hrun)
      as (a & Ha & Hb & (_ & HSa & HIa & HRa & Hpa)).
    rewrite Hpa in Hp. injection Hp as <-.
    apply loop_body_spec in Hb. destruct Hb as (He & _).
    exists a, (S_var a), (I_var a), (R_var a), (S_var st), (I_var st), (R_var st).
    split; [apply run_to_exact, Ha |]. split; [reflexivity |].
    split; [exact HSa |]. split; [exact HIa |]. split; [exact HRa |].
    split; [apply list_lookup_middle; symmetry; exact LS |].
    split; [apply list_lookup_middle; symmetry; exact LI |].
    split; [apply list_lookup_middle; symmetry; exact LR |].
    destruct (current_phase a); exact He.
  - assert (Hk' : (S k < m)%nat) by lia.
    destruct (run_to_consecutive _ _ _ _ _ _ k Hrun Hk')
      as (a & b & Ha & _ & Hb & (_ & HSa & HIa & HRa & Hpa)
          & (_ & HSb & HIb & HRb & _)).
    rewrite Hpa in Hp. injection Hp as <-.
    apply loop_body_spec in Hb. destruct Hb as (He & _).
    exists a, (S_var a), (I_var a), (R_var a), (S_var b), (I_var b), (R_var b).
    split; [apply run_to_exact, Ha |]. split; [reflexivity |].
    split; [exact HSa |]. split; [exact HIa |]. split; [exact HRa |].
    split; [apply lookup_app_l_Some; exact HSb |].
    split; [apply lookup_app_l_Some; exact HIb |].
    split; [apply lookup_app_l_Some; exact HRb |].
    destruct (current_phase a); exact He.
Qed.

(** An instance: the first step of [town] is labelled dance although it
    switches to hammer, and it is integrated at beta_dance. *)
Lemma recorded_phase_matches_rate_witness :
  final_locals town 2 50 20 30 20 1 = Some town_end /\
  phase_list town_end !! 0%nat = Some dance /\
  phase_list town_end !! 1%nat = Some hammer /\
  exists (st_k : locals) (Sk Ik Rk Sk' Ik' Rk' : Q),
    for_loop town 50 20 1 0 (entry town) = Some st_k /\
    current_phase st_k = dance /\
    S_list town_end !! 0%nat = Some Sk /\
    I_list town_end !! 0%nat = Some Ik /\
    R_list town_end !! 0%nat = Some Rk /\
    (S_list town_end ++ [S_var town_end]) !! 1%nat = Some Sk' /\
    (I_list town_end ++ [I_var town_end]) !! 1%nat = Some Ik' /\
    (R_list town_end ++ [R_var town_end]) !! 1%nat = Some Rk' /\
    euler_step town Sk Ik Rk (beta_dance town) 1 = Some (Sk', Ik', Rk').
Proof.
  assert (Hf : final_locals town 2 50 20 30 20 1 = Some town_end)
    by (vm_compute; reflexivity).
  split; [exact Hf |]. split; [reflexivity |]. split; [reflexivity |].
  exact (recorded_phase_matches_rate town 2 50 20 30 20 1 town_end Hf
           0%nat dance eq_refl).
Defined.

(** C10: every entry of the returned series is the state at the start of a
    step; the last entry is the state before the final integration, whose
    result is in no series; every recorded infected count after the first has
    passed the test against 0.1, so the count that ends a run by extinction is
    not recorded, and the last recorded count can be at or above 0.1 (as it is
    for [hamlet]).  With dt > 0 every recorded time is earlier than the time
    the loop ends with. *)
Theorem series_record_step_starts :
  (forall (self : HammerDanceModel)
          (max_days hammer_threshold dance_threshold : Q)
          (hammer_duration dance_duration dt : Q) (st : locals),
      final_locals self max_days hammer_threshold dance_threshold
                   hammer_duration dance_duration dt = Some st ->
      same_lengths st (length (t_list st)) /\
      (forall k, (k < length (t_list st))%nat ->
         exists st_k,
           for_loop self hammer_threshold dance_threshold dt k (entry self)
             = Some st_k /\
           recorded_at st k st_k) /\
      ((0 < length (t_list st))%nat ->
       exists prev,
         recorded_at st (length (t_list st) - 1) prev /\
         loop_body self hammer_threshold dance_threshold dt prev = Some st) /\
      (forall k i, I_list st !! S k = Some i -> 1 # 10 <= i) /\
      (0 < dt -> forall k x, t_list st !! k = Some x -> x < t_var st)) /\
  (exists (st : locals) (i : Q),
      final_locals hamlet 10 50 20 30 20 1 = Some st /\
      I_var st < 1 # 10 /\
      last (I_list st) = Some i /\
      1 # 10 <= i /\
      ~ I_var st ∈ I_list st).
Proof.
  split.
  - intros self max_days ht dth hd dd dt st Hf.
    apply final_locals_inv in Hf. destruct Hf as (steps & _ & Hl).
    destruct (for_loop_entry _ _ _ _ _ _ Hl) as (m & _ & Hrun & _).
    pose proof (run_to_lengths _ _ _ _ _ _ Hrun) as HL.
    pose proof HL as (Lt & _ & LI & _). rewrite Lt.
    split; [exact HL |]. split; [| split; [| split]].
    + intros k Hk.
      destruct (run_to_history _ _ _ _ _ _ Hrun k Hk) as (a & Ha & Hrec & _).
      exists a. split; [apply run_to_exact, Ha | exact Hrec].
    + intros Hm. destruct m as [|m']; [lia |].
      destruct (run_to_last _ _ _ _ _ _ Hrun) as (prev & _ & Hb & Hrec).
      exists prev. replace (S m' - 1)%nat with m' by lia. split; assumption.
    + intros k i Hi.
      assert (Hk : (S k < m)%nat) by (apply lookup_lt_Some in Hi; lia).
      destruct (run_to_history _ _ _ _ _ _ Hrun (S k) Hk)
        as (a & _ & (_ & _ & HIa & _) & Hc & _).
      rewrite HIa in Hi. injection Hi as <-.
      destruct Hc as [Hc | Hc]; [discriminate | exact Hc].
    + intros Hdt k x Hx.
      assert (Hk : (k < m)%nat) by (apply lookup_lt_Some in Hx; lia).
      destruct (run_to_history _ _ _ _ _ _ Hrun k Hk)
        as (a & Ha & (Hta & _) & _).
      rewrite Hta in Hx. injection Hx as <-.
      rewrite (run_to_time _ _ _ _ _ _ Ha), (run_to_time _ _ _ _ _ _ Hrun).
      apply Qmult_lt_compat_r; [exact Hdt |].
      rewrite <- Zlt_Qlt. lia.
  - exists hamlet_end, 1.
    split; [vm_compute; reflexivity |].
    split; [reflexivity |]. split; [reflexivity |]. split; [discriminate |].
    vm_compute. intros H. apply list_elem_of_In in H.
    destruct H as [H | []]. discriminate.
Qed.

(** An instance: the only entry of the [hamlet] run is its entry state. *)
Lemma series_record_step_starts_witness :
  final_locals hamlet 10 50 20 30 20 1 = Some hamlet_end /\
  exists st_k,
    for_loop hamlet 50 20 1 0 (entry hamlet) = Some st_k /\
    recorded_at hamlet_end 0 st_k.
Proof.
  assert (Hf : final_locals hamlet 10 50 20 30 20 1 = Some hamlet_end)
    by (vm_compute; reflexivity).
  split; [exact Hf |].
  destruct (proj1 series_record_step_starts hamlet 10 50 20 30 20 1 hamlet_end Hf)
    as (_ & Hrec & _).
  apply (Hrec 0%nat). vm_compute. lia.
Defined.

(** * Further properties of the integrator and the driver *)

(** ** Failure of the integrator *)

(** X1: [sir_derivatives] and [euler_step] raise exactly when the population
    N is zero; no state, rate or step size makes them fail otherwise. *)
Theorem integrator_fails_iff_no_population
    (self : HammerDanceModel) (S I R beta dt : Q) :
  (sir_derivatives self S I R beta = None <-> N self == 0) /\
  (euler_step self S I R beta dt = None <-> N self == 0).
Proof.
  split; split.
  - intros H. destruct (Qeq_dec (N self) 0) as [E | E]; [exact E |].
    rewrite sir_derivatives_Some in H by exact E. discriminate.
  - apply sir_derivatives_None.
  - intros H. destruct (Qeq_dec (N self) 0) as [E | E]; [exact E |].
    rewrite euler_step_Some in H by exact E. discriminate.
  - apply euler_step_None.
Qed.

(** ** Mass action *)

(** X2: for N <> 0 the derivatives are those of the plain mass-action law:
    dS = -(beta*S*I/N), dI = beta*S*I/N - gamma*I, and the three sum to zero. *)
Theorem sir_derivatives_mass_action
    (self : HammerDanceModel) (S I R beta : Q) :
  ~ N self == 0 ->
  exists dS dI dR : Q,
    sir_derivatives self S I R beta = Some (dS, dI, dR) /\
    dS == - (beta * S * I / N self) /\
    dI == beta * S * I / N self - gamma self * I /\
    dS + dI + dR == 0.
Proof.
  intros HN. eexists _, _, _.
  split; [apply sir_derivatives_Some, HN |].
  split; [field; exact HN |]. split; [field; exact HN | ring].
Qed.

Lemma sir_derivatives_mass_action_witness :
  ~ N town == 0 /\
  exists dS dI dR : Q,
    sir_derivatives town 940 60 0 (1#2) = Some (dS, dI, dR) /\
    dS == - ((1#2) * 940 * 60 / N town) /\
    dI == (1#2) * 940 * 60 / N town - gamma town * 60 /\
    dS + dI + dR == 0.
Proof.
  split; [discriminate |].
  apply (sir_derivatives_mass_action town 940 60 0 (1#2)). discriminate.
Defined.

(** ** Growth and decline of the infection in one step *)

(** X3: in one Euler step with N > 0, dt >= 0 and I >= 0, the infected count
    does not grow when beta*S <= gamma*N and does not fall when
    beta*S >= gamma*N. *)
Theorem infected_step_threshold
    (self : HammerDanceModel) (S I R beta dt S' I' R' : Q) :
  0 < N self -> 0 <= dt -> 0 <= I ->
  euler_step self S I R beta dt = Some (S', I', R') ->
  (beta * S <= gamma self * N self -> I' <= I) /\
  (gamma self * N self <= beta * S -> I <= I').
Proof.
  intros HN Hdt HI He.
  assert (HN0 : ~ N self == 0) by (intros E; lra).
  rewrite euler_step_Some in He by exact HN0. injection He as _ <- _.
  assert (E : I + (beta * (S / N self) * (I / N self)
                   - gamma self * (I / N self)) * N self * dt
              == I + (beta * S - gamma self * N self) * (/ N self) * (I * dt))
    by (field; exact HN0).
  rewrite E. clear E.
  assert (Hinv : 0 < / N self) by (apply Qinv_lt_0_compat, HN).
  assert (Hidt : 0 <= I * dt) by (apply Qmult_le_0_compat; assumption).
  split; intros Hc.
  - assert (H1 : (gamma self * N self - beta * S) * (/ N self) * (I * dt) >= 0).
    { apply Qmult_le_0_compat; [apply Qmult_le_0_compat; lra | exact Hidt]. }
    lra.
  - assert (H1 : 0 <= (beta * S - gamma self * N self) * (/ N self) * (I * dt)).
    { apply Qmult_le_0_compat; [apply Qmult_le_0_compat; lra | exact Hidt]. }
    lra.
Qed.

Lemma infected_step_threshold_witness :
  exists S' I' R' : Q,
    euler_step town 940 60 0 (1#10) 1 = Some (S', I', R') /\ I' <= 60.
Proof.
  eexists _, _, _. split; [reflexivity |].
  refine (proj1 (infected_step_threshold town 940 60 0 (1#10) 1 _ _ _
                   _ _ _ eq_refl) _);
    [reflexivity | discriminate | discriminate | discriminate].
Defined.

(** ** When the driver fails, and when it records nothing *)

Lemma py_int_pos (q : Q) : (1 <= py_int q)%Z <-> 1 <= q.
Proof.
  destruct q as [n d]. unfold py_int, Qle. simpl. rewrite Z.mul_1_l, Z.mul_1_r.
  split; intros H.
  - destruct (Z.lt_ge_cases n 0) as [Hn | Hn].
    + assert (n ÷ Z.pos d <= 0)%Z by (apply Z.quot_le_upper_bound; lia). lia.
    + rewrite Z.quot_div_nonneg in H by lia.
      destruct (Z.lt_ge_cases n (Z.pos d)) as [Hlt | Hge]; [| exact Hge].
      rewrite Z.div_small in H by lia. lia.
  - rewrite Z.quot_div_nonneg by lia.
    apply Z.div_le_lower_bound; lia.
Qed.

Lemma step_budget_pos (max_days dt : Q) (steps : nat) :
  step_budget max_days dt = Some steps ->
  ((1 <= steps)%nat <-> 1 <= max_days / dt).
Proof.
  unfold step_budget, py_div. destruct (Qeq_bool dt 0); [discriminate |].
  simpl. intros [= <-]. unfold range_len. rewrite <- py_int_pos. lia.
Qed.

Lemma for_loop_no_population (self : HammerDanceModel)
    (hammer_threshold dance_threshold dt : Q) (steps : nat) (st : locals) :
  N self == 0 -> (1 <= steps)%nat ->
  for_loop self hammer_threshold dance_threshold dt steps st = None.
Proof.
  intros HN Hs. destruct steps as [|steps]; [lia |]. simpl.
  rewrite loop_body_None by exact HN. reflexivity.
Qed.

(** X4: [simulate_dynamic_hammer_dance] raises exactly when dt is zero, or
    when N is zero and the horizon holds at least one step
    (max_days/dt >= 1).  When dt is not zero and max_days/dt < 1 it returns six
    empty lists, whatever the model. *)
Theorem simulate_failure_and_empty_run (self : HammerDanceModel)
    (max_days hammer_threshold dance_threshold hammer_duration dance_duration dt : Q) :
  (simulate_dynamic_hammer_dance self max_days hammer_threshold dance_threshold
                                 hammer_duration dance_duration dt = None
   <-> dt == 0 \/ (N self == 0 /\ 1 <= max_days / dt)) /\
  (~ dt == 0 -> max_days / dt < 1 ->
   simulate_dynamic_hammer_dance self max_days hammer_threshold dance_threshold
                                 hammer_duration dance_duration dt
     = Some ([], [], [], [], [], [])).
Proof.
  unfold simulate_dynamic_hammer_dance, final_locals.
  destruct (Qeq_dec dt 0) as [Hdt | Hdt].
  - split; [| contradiction].
    unfold step_budget. rewrite py_div_None by exact Hdt. simpl.
    split; [intros _; left; exact Hdt | reflexivity].
  - pose proof (step_budget_Some max_days dt Hdt) as Hsb. rewrite Hsb. simpl.
    pose proof (step_budget_pos _ _ _ Hsb) as Hpos.
    set (steps := range_len (py_int (max_days / dt))) in *.
    split.
    + split.
      * intros Hnone. right.
        destruct (Qeq_dec (N self) 0) as [HN | HN].
        -- split; [exact HN |]. apply Hpos.
           destruct steps; [discriminate | lia].
        -- destruct (for_loop_total self hammer_threshold dance_threshold dt
                       steps (entry self) HN) as [st Hst].
           rewrite Hst in Hnone. discriminate.
      * intros [Hz | [HN Hq]]; [contradiction |].
        rewrite for_loop_no_population; [reflexivity | exact HN | apply Hpos, Hq].
    + intros _ Hq.
      assert (steps = 0%nat) as ->.
      { destruct steps; [reflexivity |].
        assert (1 <= max_days / dt) by (apply Hpos; lia). lra. }
      reflexivity.
Qed.

(** An instance: half a day in one-day steps records nothing. *)
Lemma simulate_failure_and_empty_run_witness :
  simulate_dynamic_hammer_dance town (1#2) 50 20 30 20 1
    = Some ([], [], [], [], [], []).
Proof.
  apply (proj2 (simulate_failure_and_empty_run town (1#2) 50 20 30 20 1));
    [discriminate | reflexivity].
Defined.

(** ** The recorded times *)

(** X5: the entry of index k of the time series is k*dt, and the time the
    loop ends with is dt times the number of entries. *)
Theorem recorded_times (self : HammerDanceModel)
    (max_days hammer_threshold dance_threshold hammer_duration dance_duration dt : Q)
    (st : locals) :
  final_locals self max_days hammer_threshold dance_threshold
               hammer_duration dance_duration dt = Some st ->
  (forall k x, t_list st !! k = Some x -> x == inject_Z (Z.of_nat k) * dt) /\
  t_var st == inject_Z (Z.of_nat (length (t_list st))) * dt.
Proof.
  intros Hf. apply final_locals_inv in Hf. destruct Hf as (steps & _ & Hl).
  destruct (for_loop_entry _ _ _ _ _ _ Hl) as (m & _ & Hrun & _).
  pose proof (run_to_lengths _ _ _ _ _ _ Hrun) as (Lt & _). rewrite Lt.
  split; [| apply (run_to_time _ _ _ _ _ _ Hrun)].
  intros k x Hx.
  assert (Hk : (k < m)%nat) by (apply lookup_lt_Some in Hx; lia).
  destruct (run_to_history _ _ _ _ _ _ Hrun k Hk) as (a & Ha & (Hta & _) & _).
  rewrite Hta in Hx. injection Hx as <-.
  apply (run_to_time _ _ _ _ _ _ Ha).
Qed.

Lemma recorded_times_witness :
  final_locals town 2 50 20 30 20 1 = Some town_end /\
  (forall k x, t_list town_end !! k = Some x -> x == inject_Z (Z.of_nat k) * 1) /\
  t_var town_end == inject_Z (Z.of_nat (length (t_list town_end))) * 1.
Proof.
  assert (Hf : final_locals town 2 50 20 30 20 1 = Some town_end)
    by (vm_compute; reflexivity).
  split; [exact Hf |].
  exact (recorded_times town 2 50 20 30 20 1 town_end Hf).
Defined.

(** ** The first step is always taken *)

(** X6: with N <> 0 and a budget of at least one step, the series are not
    empty and begin with time 0, the initial S0, I0, R0 and the label dance,
    even when I0 is already below 0.1.  With I0 = 0 the state does not move and
    the run ends after that single entry. *)
Theorem first_step_recorded (self : HammerDanceModel)
    (max_days hammer_threshold dance_threshold hammer_duration dance_duration dt : Q)
    (steps : nat) :
  ~ N self == 0 ->
  step_budget max_days dt = Some steps ->
  (1 <= steps)%nat ->
  exists st,
    final_locals self max_days hammer_threshold dance_threshold
                 hammer_duration dance_duration dt = Some st /\
    t_list st !! 0%nat = Some 0 /\
    S_list st !! 0%nat = Some (S0 self) /\
    I_list st !! 0%nat = Some (I0 self) /\
    R_list st !! 0%nat = Some (R0 self) /\
    phase_list st !! 0%nat = Some dance /\
    (I0 self == 0 ->
     length (t_list st) = 1%nat /\
     S_var st == S0 self /\ I_var st == 0 /\ R_var st == R0 self).
Proof.
  intros HN Hsb Hs.
  destruct (for_loop_total self hammer_threshold dance_threshold dt
              steps (entry self) HN) as [st Hl].
  exists st. split; [unfold final_locals; rewrite Hsb; exact Hl |].
  destruct (for_loop_entry _ _ _ _ _ _ Hl) as (m & Hm & Hrun & Hstop).
  assert (Hm1 : (1 <= m)%nat).
  { destruct (decide (m = steps)) as [-> | Hne]; [exact Hs |]. apply Hstop. lia. }
  destruct (run_to_history _ _ _ _ _ _ Hrun 0%nat Hm1)
    as (a & Ha & (Ht & HS & HI & HR & Hp) & _).
  inversion Ha; subst a. simpl in *.
  repeat (split; [assumption |]).
  intros HI0.
  destruct (loop_body_total self hammer_threshold dance_threshold dt
              (entry self) HN) as [st1 Hb].
  assert (Hr1 : run_to self hammer_threshold dance_threshold dt 1 st1)
    by (eapply run_next; [apply run_entry | left; reflexivity | exact Hb]).
  pose proof (loop_body_spec _ _ _ _ _ _ Hb) as (He & _).
  rewrite euler_step_Some in He by exact HN. simpl in He.
  injection He as HS1 HI1 HR1.
  assert (EI : I_var st1 == 0) by (rewrite <- HI1, HI0; field; exact HN).
  assert (Hst : st = st1).
  { apply (run_to_fun _ _ _ _ _ _ _ Hrun).
    destruct (decide (m = 1%nat)) as [-> | Hne]; [exact Hr1 |].
    exfalso.
    destruct (run_to_history _ _ _ _ _ _ Hrun 1%nat ltac:(lia))
      as (b & Hb1 & _ & Hc & _).
    rewrite (run_to_fun _ _ _ _ _ _ _ Hb1 Hr1) in Hc.
    destruct Hc as [Hc | Hc]; [discriminate | lra]. }
  subst st1.
  pose proof (run_to_lengths _ _ _ _ _ _ Hr1) as (Lt & _).
  split; [exact Lt |]. split; [| split; [exact EI |]].
  - rewrite <- HS1, HI0. field. exact HN.
  - rewrite <- HR1, HI0. field. exact HN.
Qed.

Lemma first_step_recorded_witness :
  exists st,
    final_locals hamlet 10 50 20 30 20 1 = Some st /\
    t_list st !! 0%nat = Some 0 /\
    I_list st !! 0%nat = Some (I0 hamlet) /\
    phase_list st !! 0%nat = Some dance.
Proof.
  destruct (first_step_recorded hamlet 10 50 20 30 20 1 10)
    as (st & Hf & Ht & _ & HI & _ & Hp & _);
    [discriminate | reflexivity | lia |].
  exists st. repeat split; assumption.
Defined.

(** ** Steps that are small enough keep the compartments in range *)

(** One Euler step from a state with non-negative compartments, when the
    step is short against both rates (beta*dt <= 1, gamma*dt <= 1). *)
Lemma euler_step_in_range
    (self : HammerDanceModel) (S I R beta dt S' I' R' : Q) :
  0 < N self -> 0 <= dt ->
  0 <= beta -> beta * dt <= 1 ->
  0 <= gamma self -> gamma self * dt <= 1 ->
  0 <= S -> 0 <= I -> 0 <= R -> S + I + R == N self ->
  euler_step self S I R beta dt = Some (S', I', R') ->
  0 <= S' /\ 0 <= I' /\ 0 <= R' /\ S' <= S /\ R <= R'.
Proof.
  intros HN Hdt Hb Hbdt Hg Hgdt HS HI HR Hsum He.
  assert (HN0 : ~ N self == 0) by (intros E; lra).
  rewrite euler_step_Some in He by exact HN0. injection He as <- <- <-.
  assert (Hinv : 0 < / N self) by (apply Qinv_lt_0_compat, HN).
  assert (Hbd : 0 <= beta * dt) by (apply Qmult_le_0_compat; assumption).
  assert (Hi0 : 0 <= I * / N self) by (apply Qmult_le_0_compat; lra).
  assert (Hs0 : 0 <= S * / N self) by (apply Qmult_le_0_compat; lra).
  assert (Hi1 : I * / N self <= 1).
  { assert (E : 1 == N self * / N self) by (field; exact HN0). rewrite E.
    apply Qmult_le_compat_r; lra. }
  assert (Hp : beta * dt * (I * / N self) <= 1 * 1)
    by (apply Qmult_le_compat_nonneg; split; assumption).
  assert (Hq : 0 <= beta * dt * (I * / N self))
    by (apply Qmult_le_0_compat; assumption).
  assert (Hq' : 0 <= beta * dt * (S * / N self))
    by (apply Qmult_le_0_compat; assumption).
  assert (HSq : 0 <= S * (beta * dt * (I * / N self)))
    by (apply Qmult_le_0_compat; assumption).
  assert (HS1 : 0 <= S * (1 - beta * dt * (I * / N self)))
    by (apply Qmult_le_0_compat; lra).
  assert (HI1 : 0 <= I * (1 - gamma self * dt + beta * dt * (S * / N self)))
    by (apply Qmult_le_0_compat; lra).
  assert (HR1 : 0 <= gamma self * (I * dt))
    by (repeat apply Qmult_le_0_compat; assumption).
  assert (ES : S + - beta * (S / N self) * (I / N self) * N self * dt
               == S * (1 - beta * dt * (I * / N self)))
    by (field; exact HN0).
  assert (EI : I + (beta * (S / N self) * (I / N self)
                    - gamma self * (I / N self)) * N self * dt
               == I * (1 - gamma self * dt + beta * dt * (S * / N self)))
    by (field; exact HN0).
  assert (ER : R + gamma self * (I / N self) * N self * dt
               == R + gamma self * (I * dt))
    by (field; exact HN0).
  rewrite ES, EI, ER. repeat split; lra.
Qed.

Section SmallSteps.

Variables pop infected recovered beta_h beta_d gamma_r : Q.
Variables hammer_threshold dance_threshold dt : Q.

Hypothesis pop_pos : 0 < pop.
Hypothesis infected_nonneg : 0 <= infected.
Hypothesis recovered_nonneg : 0 <= recovered.
Hypothesis initial_fits : infected + recovered <= pop.
Hypothesis dt_nonneg : 0 <= dt.
Hypothesis beta_h_nonneg : 0 <= beta_h.
Hypothesis beta_h_small : beta_h * dt <= 1.
Hypothesis beta_d_nonneg : 0 <= beta_d.
Hypothesis beta_d_small : beta_d * dt <= 1.
Hypothesis gamma_nonneg : 0 <= gamma_r.
Hypothesis gamma_small : gamma_r * dt <= 1.

Abbreviation model := (init pop infected recovered beta_h beta_d gamma_r).

Lemma run_to_in_range k st :
  run_to model hammer_threshold dance_threshold dt k st ->
  0 <= S_var st /\ 0 <= I_var st /\ 0 <= R_var st /\
  S_var st + I_var st + R_var st == pop.
Proof.
  induction 1 as [|k st st' _ IH _ Hb].
  - simpl. repeat split; lra.
  - destruct IH as (HS & HI & HR & Hsum).
    apply loop_body_spec in Hb. destruct Hb as (He & _).
    pose proof (euler_step_sum _ _ _ _ _ _ _ _ _ He) as Hsum'.
    eapply euler_step_in_range in He; try eassumption;
      try (destruct (current_phase st); simpl; assumption).
    destruct He as (HS' & HI' & HR' & _). repeat split; try assumption.
    rewrite Hsum'. exact Hsum.
Qed.

Lemma run_step_monotone k st st' :
  run_to model hammer_threshold dance_threshold dt k st ->
  loop_body model hammer_threshold dance_threshold dt st = Some st' ->
  S_var st' <= S_var st /\ R_var st <= R_var st'.
Proof.
  intros Hr Hb. destruct (run_to_in_range _ _ Hr) as (HS & HI & HR & Hsum).
  apply loop_body_spec in Hb. destruct Hb as (He & _).
  eapply euler_step_in_range in He; try eassumption;
    try (destruct (current_phase st); simpl; assumption).
  destruct He as (_ & _ & _ & HS' & HR'). split; assumption.
Qed.

End SmallSteps.

(** X7: for a model with N > 0, 0 <= I0, 0 <= R0, I0 + R0 <= N, non-negative
    rates and a step with 0 <= dt, beta_hammer*dt <= 1, beta_dance*dt <= 1 and
    gamma*dt <= 1, every recorded S, I and R lies between 0 and N: under these
    bounds the Euler scheme never drives a compartment negative. *)
Theorem compartments_stay_in_range
    (N I0 R0 beta_hammer beta_dance gamma : Q)
    (max_days hammer_threshold dance_threshold : Q)
    (hammer_duration dance_duration dt : Q)
    (ts Ss Is Rs : list Q) (ps : list phase) (tps : list transition_point) :
  0 < N -> 0 <= I0 -> 0 <= R0 -> I0 + R0 <= N -> 0 <= dt ->
  0 <= beta_hammer -> beta_hammer * dt <= 1 ->
  0 <= beta_dance -> beta_dance * dt <= 1 ->
  0 <= gamma -> gamma * dt <= 1 ->
  simulate_dynamic_hammer_dance
    (init N I0 R0 beta_hammer beta_dance gamma)
    max_days hammer_threshold dance_threshold hammer_duration dance_duration dt
    = Some (ts, Ss, Is, Rs, ps, tps) ->
  (forall k x, Ss !! k = Some x -> 0 <= x /\ x <= N) /\
  (forall k x, Is !! k = Some x -> 0 <= x /\ x <= N) /\
  (forall k x, Rs !! k = Some x -> 0 <= x /\ x <= N).
Proof.
  intros HN HI0 HR0 Hfit Hdt Hbh Hbhs Hbd Hbds Hg Hgs Hsim.
  apply simulate_inv in Hsim. destruct Hsim as (st & Hf & Hr).
  injection Hr as -> -> -> -> -> ->.
  apply final_locals_inv in Hf. destruct Hf as (steps & _ & Hl).
  destruct (for_loop_entry _ _ _ _ _ _ Hl) as (m & _ & Hrun & _).
  pose proof (run_to_lengths _ _ _ _ _ _ Hrun) as (_ & LS & LI & LR & _).
  assert (G : forall k, (k < m)%nat ->
            exists a, recorded_at st k a /\
                      0 <= S_var a /\ 0 <= I_var a /\ 0 <= R_var a /\
                      S_var a + I_var a + R_var a == N).
  { intros k Hk.
    destruct (run_to_history _ _ _ _ _ _ Hrun k Hk) as (a & Ha & Hrec & _).
    exists a. split; [exact Hrec |].
    eapply run_to_in_range; [.. | exact Ha]; assumption. }
  split; [| split]; intros k x Hx;
    (assert (Hk : (k < m)%nat) by (apply lookup_lt_Some in Hx; lia));
    destruct (G k Hk) as (a & (_ & HSa & HIa & HRa & _) & HS & HI & HR & Hsum).
  - rewrite HSa in Hx. injection Hx as <-. split; lra.
  - rewrite HIa in Hx. injection Hx as <-. split; lra.
  - rewrite HRa in Hx. injection Hx as <-. split; lra.
Qed.

Lemma compartments_stay_in_range_witness :
  simulate_dynamic_hammer_dance town 2 50 20 30 20 1 = town_two_days /\
  exists ts Ss Is Rs ps tps,
    town_two_days = Some (ts, Ss, Is, Rs, ps, tps) /\
    forall k x, Is !! k = Some x -> 0 <= x /\ x <= 1000.
Proof.
  assert (H : simulate_dynamic_hammer_dance town 2 50 20 30 20 1 = town_two_days)
    by (vm_compute; reflexivity).
  split; [exact H |].
  eexists _, _, _, _, _, _. split; [reflexivity |].
  refine (proj1 (proj2 (compartments_stay_in_range
            1000 60 0 (1#10) (1#2) (1#10) 2 50 20 30 20 1 _ _ _ _ _ _
            _ _ _ _ _ _ _ _ _ _ _ H)));
    first [reflexivity | discriminate].
Defined.

(** X8: under the same bounds, along the recorded series the recovered count
    never decreases and the susceptible count never increases. *)
Theorem recovered_grows_susceptible_shrinks
    (N I0 R0 beta_hammer beta_dance gamma : Q)
    (max_days hammer_threshold dance_threshold : Q)
    (hammer_duration dance_duration dt : Q)
    (ts Ss Is Rs : list Q) (ps : list phase) (tps : list transition_point) :
  0 < N -> 0 <= I0 -> 0 <= R0 -> I0 + R0 <= N -> 0 <= dt ->
  0 <= beta_hammer -> beta_hammer * dt <= 1 ->
  0 <= beta_dance -> beta_dance * dt <= 1 ->
  0 <= gamma -> gamma * dt <= 1 ->
  simulate_dynamic_hammer_dance
    (init N I0 R0 beta_hammer beta_dance gamma)
    max_days hammer_threshold dance_threshold hammer_duration dance_duration dt
    = Some (ts, Ss, Is, Rs, ps, tps) ->
  (forall k x y, Rs !! k = Some x -> Rs !! S k = Some y -> x <= y) /\
  (forall k x y, Ss !! k = Some x -> Ss !! S k = Some y -> y <= x).
Proof.
  intros HN HI0 HR0 Hfit Hdt Hbh Hbhs Hbd Hbds Hg Hgs Hsim.
  apply simulate_inv in Hsim. destruct Hsim as (st & Hf & Hr).
  injection Hr as -> -> -> -> -> ->.
  apply final_locals_inv in Hf. destruct Hf as (steps & _ & Hl).
  destruct (for_loop_entry _ _ _ _ _ _ Hl) as (m & _ & Hrun & _).
  pose proof (run_to_lengths _ _ _ _ _ _ Hrun) as (_ & LS & _ & LR & _).
  assert (G : forall k, (S k < m)%nat ->
            exists a b, recorded_at st k a /\ recorded_at st (S k) b /\
                        S_var b <= S_var a /\ R_var a <= R_var b).
  { intros k Hk.
    destruct (run_to_consecutive _ _ _ _ _ _ k Hrun Hk)
      as (a & b & Ha & _ & Hb & Hra & Hrb).
    exists a, b. split; [exact Hra |]. split; [exact Hrb |].
    eapply run_step_monotone; [.. | exact Ha | exact Hb]; assumption. }
  split; intros k x y Hx Hy;
    (assert (Hk : (S k < m)%nat) by (apply lookup_lt_Some in Hy; lia));
    destruct (G k Hk)
      as (a & b & (_ & HSa & _ & HRa & _) & (_ & HSb & _ & HRb & _) & HS & HR).
  - rewrite HRa in Hx. injection Hx as <-.
    rewrite HRb in Hy. injection Hy as <-. exact HR.
  - rewrite HSa in Hx. injection Hx as <-.
    rewrite HSb in Hy. injection Hy as <-. exact HS.
Qed.

Lemma recovered_grows_susceptible_shrinks_witness :
  simulate_dynamic_hammer_dance town 2 50 20 30 20 1 = town_two_days /\
  exists ts Ss Is Rs ps tps,
    town_two_days = Some (ts, Ss, Is, Rs, ps, tps) /\
    forall k x y, Rs !! k = Some x -> Rs !! S k = Some y -> x <= y.
Proof.
  assert (H : simulate_dynamic_hammer_dance town 2 50 20 30 20 1 = town_two_days)
    by (vm_compute; reflexivity).
  split; [exact H |].
  eexists _, _, _, _, _, _. split; [reflexivity |].
  refine (proj1 (recovered_grows_susceptible_shrinks
            1000 60 0 (1#10) (1#2) (1#10) 2 50 20 30 20 1 _ _ _ _ _ _
            _ _ _ _ _ _ _ _ _ _ _ H));
    first [reflexivity | discriminate].
Defined.

(** ** The transition log against the series *)

Lemma replay_app (p : phase) (l1 l2 : list transition_point) :
  replay p (l1 ++ l2) = replay p l1 ≫= fun q => replay q l2.
Proof.
  revert p. induction l1 as [|[[t k] i] l1 IH]; intros p; simpl; [reflexivity |].
  destruct (phase_eqb (kind_from k) p); [apply IH | reflexivity].
Qed.

Lemma replay_events (hammer_threshold dance_threshold : Q) (st : locals) :
  replay (current_phase st) (events hammer_threshold dance_threshold st)
    = Some (decided hammer_threshold dance_threshold st).
Proof.
  unfold events, decided.
  decision_cases st hammer_threshold dance_threshold; reflexivity.
Qed.

(** X9: the transition log alternates, beginning with dance_to_hammer: each
    event leaves the phase the previous one entered (dance before the first),
    and the phase the loop ends in is the one the last event entered. *)
Theorem transition_log_alternates (self : HammerDanceModel)
    (max_days hammer_threshold dance_threshold hammer_duration dance_duration dt : Q)
    (st : locals) :
  final_locals self max_days hammer_threshold dance_threshold
               hammer_duration dance_duration dt = Some st ->
  replay dance (transition_points st) = Some (current_phase st).
Proof.
  intros Hf. apply final_locals_inv in Hf. destruct Hf as (steps & _ & Hl).
  destruct (for_loop_entry _ _ _ _ _ _ Hl) as (m & _ & Hrun & _).
  clear Hl. induction Hrun as [|k st st' _ IH _ Hb]; [reflexivity |].
  apply loop_body_spec in Hb.
  destruct Hb as (_ & _ & -> & _ & _ & _ & _ & _ & ->).
  rewrite replay_app, IH. simpl. apply replay_events.
Qed.

Lemma transition_log_alternates_witness :
  final_locals town 2 50 20 30 20 1 = Some town_end /\
  replay dance (transition_points town_end) = Some hammer.
Proof.
  assert (Hf : final_locals town 2 50 20 30 20 1 = Some town_end)
    by (vm_compute; reflexivity).
  split; [exact Hf |].
  exact (transition_log_alternates town 2 50 20 30 20 1 town_end Hf).
Defined.

Section LogAgainstSeries.

Variable self : HammerDanceModel.
Variables hammer_threshold dance_threshold dt : Q.

(** Where an event of the log comes from: a step of the run. *)
Lemma run_to_log_origin k st :
  run_to self hammer_threshold dance_threshold dt k st ->
  (length (transition_points st) <= k)%nat /\
  forall time kind count,
    (time, kind, count) ∈ transition_points st ->
    exists j a,
      (j < k)%nat /\
      run_to self hammer_threshold dance_threshold dt j a /\
      time = t_var a /\ count = I_var a /\
      current_phase a = kind_from kind /\
      crossed hammer_threshold dance_threshold kind (I_var a).
Proof.
  induction 1 as [|k st st' Hr [IHlen IH] _ Hb].
  - split; [simpl; lia |]. intros time kind count Hin. simpl in Hin.
    apply elem_of_nil in Hin. contradiction.
  - apply loop_body_spec in Hb.
    destruct Hb as (_ & _ & _ & _ & _ & _ & _ & _ & ->).
    split.
    + rewrite length_app. unfold events.
      decision_cases st hammer_threshold dance_threshold; simpl; lia.
    + intros time kind count Hin. apply elem_of_app in Hin.
      destruct Hin as [Hin | Hin].
      * destruct (IH _ _ _ Hin) as (j & a & Hj & Hrest).
        exists j, a. split; [lia | exact Hrest].
      * exists k, st. split; [lia |]. split; [exact Hr |].
        unfold events in Hin.
        decision_cases st hammer_threshold dance_threshold;
          try (apply elem_of_nil in Hin; contradiction);
          apply list_elem_of_singleton in Hin; injection Hin as -> -> ->;
          repeat split; try assumption; simpl; apply Qltb_lt; assumption.
Qed.

End LogAgainstSeries.

(** X10: every event (time, kind, count) of the transition log belongs to a
    recorded step: at some index the time series holds that time, the infected
    series that count and the phase series the phase the event leaves, and the
    count passed the test of that kind (above hammer_threshold for
    dance_to_hammer, below dance_threshold for hammer_to_dance_threshold).
    The log has at most one event per recorded step. *)
Theorem transition_log_matches_series (self : HammerDanceModel)
    (max_days hammer_threshold dance_threshold hammer_duration dance_duration dt : Q)
    (st : locals) :
  final_locals self max_days hammer_threshold dance_threshold
               hammer_duration dance_duration dt = Some st ->
  (length (transition_points st) <= length (t_list st))%nat /\
  forall time kind count,
    (time, kind, count) ∈ transition_points st ->
    exists j,
      t_list st !! j = Some time /\
      I_list st !! j = Some count /\
      phase_list st !! j = Some (kind_from kind) /\
      crossed hammer_threshold dance_threshold kind count.
Proof.
  intros Hf. apply final_locals_inv in Hf. destruct Hf as (steps & _ & Hl).
  destruct (for_loop_entry _ _ _ _ _ _ Hl) as (m & _ & Hrun & _).
  pose proof (run_to_lengths _ _ _ _ _ _ Hrun) as (Lt & _). rewrite Lt.
  destruct (run_to_log_origin _ _ _ _ _ _ Hrun) as (Hlen & Horigin).
  split; [exact Hlen |].
  intros time kind count Hin.
  destruct (Horigin _ _ _ Hin) as (j & a & Hj & Ha & -> & -> & Hp & Hc).
  destruct (run_to_history _ _ _ _ _ _ Hrun j Hj)
    as (a' & Ha' & (Ht & _ & HI & _ & Hph) & _).
  rewrite (run_to_fun _ _ _ _ _ _ _ Ha' Ha) in *.
  exists j. rewrite <- Hp. repeat split; assumption.
Qed.

Lemma transition_log_matches_series_witness :
  final_locals town 2 50 20 30 20 1 = Some town_end /\
  exists j,
    t_list town_end !! j = Some 0 /\
    I_list town_end !! j = Some 60 /\
    phase_list town_end !! j = Some dance /\
    50 < 60.
Proof.
  assert (Hf : final_locals town 2 50 20 30 20 1 = Some town_end)
    by (vm_compute; reflexivity).
  split; [exact Hf |].
  apply (proj2 (transition_log_matches_series town 2 50 20 30 20 1 town_end Hf)
           0 dance_to_hammer 60).
  vm_compute. apply list_elem_of_here.
Defined.

(** ** The band between the thresholds *)

(** X11: a step that finds the infected count between the thresholds
    (dance_threshold <= I <= hammer_threshold) keeps the phase and logs
    nothing; a step that finds it strictly between inverted thresholds
    (hammer_threshold < I < dance_threshold) changes the phase, whichever it
    was, so with inverted thresholds the phase flips on every such step. *)
Theorem threshold_band (self : HammerDanceModel)
    (hammer_threshold dance_threshold dt : Q) (st st' : locals) :
  loop_body self hammer_threshold dance_threshold dt st = Some st' ->
  (dance_threshold <= I_var st -> I_var st <= hammer_threshold ->
   current_phase st' = current_phase st /\
   transition_points st' = transition_points st) /\
  (hammer_threshold < I_var st -> I_var st < dance_threshold ->
   current_phase st' <> current_phase st /\
   length (transition_points st') = S (length (transition_points st))).
Proof.
  intros Hb. apply loop_body_spec in Hb.
  destruct Hb as (_ & _ & -> & _ & _ & _ & _ & _ & ->).
  unfold decided, events. split.
  - intros Hlo Hhi. apply Qltb_ge in Hlo, Hhi. rewrite Hlo, Hhi.
    destruct (current_phase st); rewrite app_nil_r; split; reflexivity.
  - intros Hhi Hlo. apply Qltb_lt in Hlo, Hhi. rewrite Hlo, Hhi.
    destruct (current_phase st); rewrite length_app; simpl;
      (split; [discriminate | lia]).
Qed.

Lemma threshold_band_witness :
  exists st',
    loop_body town 100 20 1 (entry town) = Some st' /\
    current_phase st' = dance /\
    transition_points st' = [].
Proof.
  destruct (loop_body_total town 100 20 1 (entry town)) as [st' Hb];
    [discriminate |].
  exists st'. split; [exact Hb |].
  apply (threshold_band town 100 20 1 (entry town) st' Hb); discriminate.
Defined.

(** * Properties of the reporting functions *)

(** ** Python list helpers *)

Lemma fold_max_spec (l : list Q) (x : Q) :
  let m := fold_left (fun m y => if Qltb m y then y else m) l x in
  m ∈ x :: l /\ forall y, y ∈ x :: l -> y <= m.
Proof.
  revert x. induction l as [|z l IH]; intros x; simpl.
  - split; [apply list_elem_of_here |].
    intros y Hy. apply list_elem_of_singleton in Hy. subst y. apply Qle_refl.
  - destruct (Qltb x z) eqn:Hc.
    + apply Qltb_lt in Hc. destruct (IH z) as [Hin Hle]. split.
      * apply list_elem_of_further. exact Hin.
      * intros y Hy. apply elem_of_cons in Hy. destruct Hy as [-> | Hy].
        -- apply Qle_trans with z; [apply Qlt_le_weak, Hc |].
           apply Hle, list_elem_of_here.
        -- apply Hle, Hy.
    + apply Qltb_ge in Hc. destruct (IH x) as [Hin Hle]. split.
      * apply elem_of_cons in Hin. destruct Hin as [-> | Hin].
        -- apply list_elem_of_here.
        -- do 2 apply list_elem_of_further. exact Hin.
      * intros y Hy. apply elem_of_cons in Hy. destruct Hy as [-> | Hy].
        -- apply Hle, list_elem_of_here.
        -- apply elem_of_cons in Hy. destruct Hy as [-> | Hy].
           ++ apply Qle_trans with x; [exact Hc | apply Hle, list_elem_of_here].
           ++ apply Hle, list_elem_of_further, Hy.
Qed.

Lemma fold_min_spec (l : list Q) (x : Q) :
  let m := fold_left (fun m y => if Qltb y m then y else m) l x in
  m ∈ x :: l /\ forall y, y ∈ x :: l -> m <= y.
Proof.
  revert x. induction l as [|z l IH]; intros x; simpl.
  - split; [apply list_elem_of_here |].
    intros y Hy. apply list_elem_of_singleton in Hy. subst y. apply Qle_refl.
  - destruct (Qltb z x) eqn:Hc.
    + apply Qltb_lt in Hc. destruct (IH z) as [Hin Hle]. split.
      * apply list_elem_of_further. exact Hin.
      * intros y Hy. apply elem_of_cons in Hy. destruct Hy as [-> | Hy].
        -- apply Qle_trans with z; [| apply Qlt_le_weak, Hc].
           apply Hle, list_elem_of_here.
        -- apply Hle, Hy.
    + apply Qltb_ge in Hc. destruct (IH x) as [Hin Hle]. split.
      * apply elem_of_cons in Hin. destruct Hin as [-> | Hin].
        -- apply list_elem_of_here.
        -- do 2 apply list_elem_of_further. exact Hin.
      * intros y Hy. apply elem_of_cons in Hy. destruct Hy as [-> | Hy].
        -- apply Hle, list_elem_of_here.
        -- apply elem_of_cons in Hy. destruct Hy as [-> | Hy].
           ++ apply Qle_trans with x; [apply Hle, list_elem_of_here | exact Hc].
           ++ apply Hle, list_elem_of_further, Hy.
Qed.

Lemma py_max_spec (l : list Q) (m : Q) :
  py_max l = inr m -> m ∈ l /\ forall y, y ∈ l -> y <= m.
Proof.
  destruct l as [|x l]; [discriminate |]. simpl. intros [= <-].
  apply fold_max_spec.
Qed.

Lemma py_min_spec (l : list Q) (m : Q) :
  py_min l = inr m -> m ∈ l /\ forall y, y ∈ l -> m <= y.
Proof.
  destruct l as [|x l]; [discriminate |]. simpl. intros [= <-].
  apply fold_min_spec.
Qed.

Lemma py_max_nonempty (l : list Q) : l <> [] -> exists m, py_max l = inr m.
Proof. destruct l; [contradiction | simpl; eauto]. Qed.

Lemma py_min_nonempty (l : list Q) : l <> [] -> exists m, py_min l = inr m.
Proof. destruct l; [contradiction | simpl; eauto]. Qed.

Lemma stride_from_lookup {A : Type} (step : nat) (l : list A) :
  (1 <= step)%nat ->
  forall skip j,
    stride_from step skip l !! j = l !! (skip + j * step)%nat.
Proof.
  intros Hs. induction l as [|x l IH]; intros skip j; simpl.
  - rewrite !lookup_nil. reflexivity.
  - destruct skip as [|skip].
    + destruct j as [|j]; [reflexivity |]. simpl. rewrite IH.
      replace (step + j * step)%nat with (S (step - 1 + j * step)) by lia.
      reflexivity.
    + rewrite IH. reflexivity.
Qed.

Lemma py_stride_lookup {A : Type} (step : Z) (l : list A) (j : nat) :
  (1 <= step)%Z -> py_stride step l !! j = l !! (j * Z.to_nat step)%nat.
Proof.
  intros Hs. unfold py_stride. rewrite stride_from_lookup by lia. reflexivity.
Qed.

(** The number of elements [l[::step]] keeps is the number of multiples of
    step below the length. *)
Lemma py_stride_length {A : Type} (step : Z) (l : list A) (j : nat) :
  (1 <= step)%Z ->
  ((j < length (py_stride step l))%nat
     <-> (j * Z.to_nat step < length l)%nat).
Proof.
  intros Hs. rewrite <- !lookup_lt_is_Some, py_stride_lookup by exact Hs.
  reflexivity.
Qed.

Lemma py_stride_one {A : Type} (l : list A) : py_stride 1 l = l.
Proof.
  apply list_eq. intros j. rewrite py_stride_lookup by lia.
  change (Z.to_nat 1) with 1%nat. rewrite Nat.mul_1_r. reflexivity.
Qed.

(** ** The text graph *)

Lemma inject_Z_nonzero (z : Z) : z <> 0%Z -> ~ inject_Z z == 0.
Proof. unfold Qeq. simpl. lia. Qed.

Lemma py_truediv_ok (x y : Q) : ~ y == 0 -> py_truediv x y = inr (x / y).
Proof.
  intros Hy. unfold py_truediv.
  destruct (Qeq_bool y 0) eqn:E; [| reflexivity].
  apply Qeq_bool_iff in E. contradiction.
Qed.

Lemma display_step_ok (t : list Q) (width : Z) :
  width <> 0%Z ->
  display_step t width = inr (Z.max 1 (Z.of_nat (length t) / width)).
Proof.
  intros Hw. unfold display_step, py_floordiv.
  destruct (Z.eqb_spec width 0); [contradiction | reflexivity].
Qed.

Lemma display_step_zero (t : list Q) : display_step t 0 = inl ZeroDivisionError.
Proof. reflexivity. Qed.

Lemma graph_rows_ok (rows : list Z) (max_I min_I : Q) (height : Z)
    (display_t : list Q) (display_I : list Z) (display_phases : list phase) :
  height <> 1%Z ->
  graph_rows rows max_I min_I height display_t display_I display_phases
    = inr ((fun row =>
              (min_I + (max_I - min_I) * inject_Z row / inject_Z (height - 1),
               graph_line row display_t display_I display_phases)) <$> rows).
Proof.
  intros Hh. induction rows as [|row rows IH]; simpl; [reflexivity |].
  rewrite py_truediv_ok by (apply inject_Z_nonzero; lia). simpl.
  rewrite IH. reflexivity.
Qed.

Lemma rows_lookup (height r : Z) :
  (0 <= r < height)%Z ->
  reverse (seqZ 0 height) !! Z.to_nat (height - 1 - r) = Some r.
Proof.
  intros Hr. rewrite reverse_lookup by (rewrite length_seqZ; lia).
  rewrite length_seqZ, lookup_seqZ_lt by lia. f_equal. lia.
Qed.

Lemma plot_text_graph_returns (self : HammerDanceModel)
    (t S I R : list Q) (phases : list phase) (width height : Z) :
  I <> [] -> width <> 0%Z -> height <> 1%Z ->
  exists rows,
    plot_text_graph self t S I R phases width height = inr rows /\
    length rows = Z.to_nat height.
Proof.
  intros HI Hw Hh. unfold plot_text_graph.
  destruct (py_max_nonempty I HI) as [mx ->].
  destruct (py_min_nonempty I HI) as [mn ->]. simpl.
  rewrite display_step_ok by exact Hw. simpl.
  rewrite graph_rows_ok by exact Hh.
  eexists. split; [reflexivity |].
  rewrite length_fmap, length_reverse, length_seqZ. reflexivity.
Qed.

(** X12: [plot_text_graph] raises ValueError exactly on an empty infected
    series; on a non-empty one it raises ZeroDivisionError exactly when
    width = 0 or height = 1, and otherwise prints one labelled row per unit of
    height (none for a height below 1).  It never raises IndexError, whatever
    the lengths of the lists. *)
Theorem plot_text_graph_outcome (self : HammerDanceModel)
    (t S I R : list Q) (phases : list phase) (width height : Z) :
  (I = [] ->
   plot_text_graph self t S I R phases width height = inl ValueError) /\
  (I <> [] -> width = 0%Z \/ height = 1%Z ->
   plot_text_graph self t S I R phases width height = inl ZeroDivisionError) /\
  (I <> [] -> width <> 0%Z -> height <> 1%Z ->
   exists rows,
     plot_text_graph self t S I R phases width height = inr rows /\
     length rows = Z.to_nat height).
Proof.
  split; [intros ->; reflexivity |].
  split; [| apply plot_text_graph_returns].
  intros HI Hc. unfold plot_text_graph.
  destruct (py_max_nonempty I HI) as [mx ->].
  destruct (py_min_nonempty I HI) as [mn ->]. simpl.
  destruct (Z.eq_dec width 0%Z) as [-> | Hw]; [reflexivity |].
  destruct Hc as [Hc | ->]; [contradiction |].
  rewrite display_step_ok by exact Hw. reflexivity.
Qed.

Lemma normalized_length (I : list Q) (max_I min_I : Q) (height : Z) :
  length (normalized I max_I min_I height) = length I.
Proof.
  unfold normalized. destruct (Qeq_bool max_I min_I).
  - apply length_replicate.
  - apply length_fmap.
Qed.

Lemma scaled_in_range (x mn mx : Q) (height : Z) :
  (1 <= height)%Z -> mn <= x -> x <= mx -> ~ mx == mn ->
  (0 <= py_int ((x - mn) / (mx - mn) * inject_Z (height - 1)) <= height - 1)%Z.
Proof.
  intros Hh Hlo Hhi Hne.
  assert (Hd : 0 < mx - mn).
  { destruct (Qlt_le_dec mn mx) as [Hlt | Hge]; [lra |].
    exfalso. apply Hne. lra. }
  assert (Hh0 : 0 <= inject_Z (height - 1)).
  { change 0 with (inject_Z 0). rewrite <- Zle_Qle. lia. }
  assert (Hq0 : 0 <= (x - mn) / (mx - mn)).
  { apply Qle_shift_div_l; [exact Hd | lra]. }
  assert (Hq1 : (x - mn) / (mx - mn) <= 1).
  { apply Qle_shift_div_r; [exact Hd | lra]. }
  assert (Hp0 : 0 <= (x - mn) / (mx - mn) * inject_Z (height - 1))
    by (apply Qmult_le_0_compat; assumption).
  assert (Hp1 : (x - mn) / (mx - mn) * inject_Z (height - 1)
                <= inject_Z (height - 1)).
  { assert (H1 : (x - mn) / (mx - mn) * inject_Z (height - 1)
                 <= 1 * inject_Z (height - 1))
      by (apply Qmult_le_compat_r; assumption).
    lra. }
  rewrite py_int_floor by exact Hp0. split.
  - change 0%Z with (Qfloor 0). apply Qfloor_resp_le, Hp0.
  - apply Z.le_trans with (Qfloor (inject_Z (height - 1)));
      [apply Qfloor_resp_le, Hp1 | rewrite Qfloor_Z; lia].
Qed.

Lemma normalized_range (I : list Q) (mx mn : Q) (height : Z) (k : nat) (n : Z) :
  py_max I = inr mx -> py_min I = inr mn -> (1 <= height)%Z ->
  normalized I mx mn height !! k = Some n ->
  (0 <= n <= height - 1)%Z.
Proof.
  intros Hmx Hmn Hh Hn. unfold normalized in Hn.
  destruct (Qeq_bool mx mn) eqn:E.
  - apply lookup_replicate in Hn. destruct Hn as [-> _].
    split; [apply Z.div_pos; lia |].
    assert (height / 2 < height)%Z by (apply Z.div_lt; lia). lia.
  - rewrite list_lookup_fmap in Hn.
    destruct (I !! k) as [x|] eqn:Hx; [| discriminate].
    simpl in Hn. injection Hn as <-.
    apply list_elem_of_lookup_2 in Hx.
    apply scaled_in_range; [exact Hh | | |].
    + apply (proj2 (py_min_spec _ _ Hmn)), Hx.
    + apply (proj2 (py_max_spec _ _ Hmx)), Hx.
    + intros Heq. apply Qeq_bool_iff in Heq. congruence.
Qed.

(** X13: for a height of at least 1, [plot_text_graph] places every infected
    count in a row between 0 and height - 1; when the counts are not all equal
    a largest count is placed in the top row height - 1 and a smallest in
    row 0. *)
Theorem normalized_rows_in_range (I : list Q) (mx mn : Q) (height : Z) :
  py_max I = inr mx -> py_min I = inr mn -> (1 <= height)%Z ->
  length (normalized I mx mn height) = length I /\
  (forall k n, normalized I mx mn height !! k = Some n ->
               (0 <= n <= height - 1)%Z) /\
  (~ mx == mn ->
   forall k x, I !! k = Some x ->
     (x == mx -> normalized I mx mn height !! k = Some (height - 1)%Z) /\
     (x == mn -> normalized I mx mn height !! k = Some 0%Z)).
Proof.
  intros Hmx Hmn Hh.
  split; [apply normalized_length |].
  split; [intros k n; apply normalized_range; assumption |].
  intros Hne k x Hx. unfold normalized.
  destruct (Qeq_bool mx mn) eqn:E; [apply Qeq_bool_iff in E; contradiction |].
  rewrite list_lookup_fmap, Hx. simpl.
  assert (Hd : ~ mx - mn == 0) by (intros Hz; apply Hne; lra).
  assert (Hh0 : 0 <= inject_Z (height - 1)).
  { change 0 with (inject_Z 0). rewrite <- Zle_Qle. lia. }
  split; intros Hxe; f_equal.
  - assert (Eq : (x - mn) / (mx - mn) * inject_Z (height - 1)
                 == inject_Z (height - 1))
      by (rewrite Hxe; field; exact Hd).
    rewrite py_int_floor by (rewrite Eq; exact Hh0).
    rewrite Eq. apply Qfloor_Z.
  - assert (Eq : (x - mn) / (mx - mn) * inject_Z (height - 1) == inject_Z 0)
      by (rewrite Hxe; change (inject_Z 0) with 0; field; exact Hd).
    rewrite py_int_floor by (rewrite Eq; discriminate).
    rewrite Eq. apply Qfloor_Z.
Qed.

Lemma normalized_rows_in_range_witness :
  py_max five_I = inr 40 /\
  py_min five_I = inr 10 /\
  normalized five_I 40 10 5 !! 2%nat = Some 4%Z /\
  forall k n, normalized five_I 40 10 5 !! k = Some n ->
              (0 <= n <= 5 - 1)%Z.
Proof.
  split; [reflexivity |]. split; [reflexivity |]. split; [reflexivity |].
  apply (normalized_rows_in_range five_I 40 10 5);
    [reflexivity | reflexivity | lia].
Defined.

(** X14: for a width of at least 1 the graph shows the points of index 0,
    step, 2*step, ... with step = max(1, len(t) // width); all of them when
    len(t) < 2*width, and in every case at most 2*width - 1 columns (so a line
    can be wider than width, but never twice as wide). *)
Theorem display_columns (t : list Q) (width : Z) :
  (1 <= width)%Z ->
  exists step,
    display_step t width = inr step /\
    (1 <= step)%Z /\
    (forall j, py_stride step t !! j = t !! (j * Z.to_nat step)%nat) /\
    (Z.of_nat (length (py_stride step t)) <= 2 * width - 1)%Z /\
    ((Z.of_nat (length t) < 2 * width)%Z -> py_stride step t = t).
Proof.
  intros Hw. exists (Z.max 1 (Z.of_nat (length t) / width)).
  split; [apply display_step_ok; lia |].
  set (n := Z.of_nat (length t)).
  set (step := Z.max 1 (n / width)).
  assert (Hstep : (1 <= step)%Z) by (unfold step; lia).
  split; [exact Hstep |].
  split; [intros j; apply py_stride_lookup, Hstep |].
  pose proof (Z.div_mod n width ltac:(lia)) as Hdm.
  pose proof (Z.mod_pos_bound n width ltac:(lia)) as Hmod.
  assert (Hq : (0 <= n / width)%Z) by (apply Z.div_pos; unfold n; lia).
  split.
  - destruct (length (py_stride step t)) as [|c] eqn:Hc; [lia |].
    assert (Hlt : (c < length (py_stride step t))%nat) by lia.
    apply py_stride_length in Hlt; [| exact Hstep].
    assert (Hz : (Z.of_nat c * step < n)%Z) by (unfold n; nia).
    destruct (Z.le_gt_cases (n / width) 1) as [Hsmall | Hbig].
    + assert (step = 1%Z) as Hs1 by (unfold step; lia). rewrite Hs1 in Hz. nia.
    + assert (step = (n / width)%Z) as Hs by (unfold step; lia).
      rewrite Hs in Hz. nia.
  - intros Hn.
    assert (Hs1 : step = 1%Z).
    { unfold step.
      assert (n / width < 2)%Z by (apply Z.div_lt_upper_bound; lia). lia. }
    rewrite Hs1. apply py_stride_one.
Qed.

Lemma display_columns_witness :
  exists step,
    display_step five_t 2 = inr step /\
    (Z.of_nat (length (py_stride step five_t)) <= 2 * 2 - 1)%Z.
Proof.
  destruct (display_columns five_t 2) as (step & Hs & _ & _ & Hb & _);
    [lia |].
  exists step. split; assumption.
Defined.




(** X16: the labels of the printed rows run linearly from the smallest
    infected count (row 0, printed last) to the largest (row height - 1,
    printed first). *)
Theorem graph_labels (self : HammerDanceModel)
    (t S I R : list Q) (phases : list phase) (width height : Z)
    (rows : list (Q * list ascii)) :
  plot_text_graph self t S I R phases width height = inr rows ->
  (2 <= height)%Z ->
  exists mx mn,
    py_max I = inr mx /\ py_min I = inr mn /\
    (forall r, (0 <= r < height)%Z ->
       exists y line,
         rows !! Z.to_nat (height - 1 - r) = Some (y, line) /\
         y == mn + (mx - mn) * inject_Z r / inject_Z (height - 1)) /\
    (exists y line, rows !! 0%nat = Some (y, line) /\ y == mx) /\
    (exists y line, last rows = Some (y, line) /\ y == mn).
Proof.
  intros Hplot Hh. unfold plot_text_graph in Hplot.
  destruct (py_max I) as [e|mx] eqn:Hmx; [discriminate |].
  destruct (py_min I) as [e|mn] eqn:Hmn; [discriminate |]. simpl in Hplot.
  destruct (display_step t width) as [e|step]; [discriminate |].
  simpl in Hplot.
  rewrite graph_rows_ok in Hplot by lia. injection Hplot as <-.
  exists mx, mn. split; [reflexivity |]. split; [reflexivity |].
  assert (Hrow : forall r, (0 <= r < height)%Z ->
            ((fun row =>
                (mn + (mx - mn) * inject_Z row / inject_Z (height - 1),
                 graph_line row (py_stride step t)
                   (py_stride step (normalized I mx mn height))
                   (py_stride step phases)))
               <$> reverse (seqZ 0 height)) !! Z.to_nat (height - 1 - r)
            = Some (mn + (mx - mn) * inject_Z r / inject_Z (height - 1),
                    graph_line r (py_stride step t)
                      (py_stride step (normalized I mx mn height))
                      (py_stride step phases))).
  { intros r Hr. rewrite list_lookup_fmap, rows_lookup by exact Hr. reflexivity. }
  assert (Hne : ~ inject_Z (height - 1) == 0) by (apply inject_Z_nonzero; lia).
  split; [| split].
  - intros r Hr. eexists _, _. split; [apply Hrow, Hr | reflexivity].
  - eexists _, _. split.
    + specialize (Hrow (height - 1)%Z ltac:(lia)).
      replace (Z.to_nat (height - 1 - (height - 1))) with 0%nat in Hrow by lia.
      exact Hrow.
    + field. exact Hne.
  - eexists _, _. split.
    + rewrite last_lookup, length_fmap, length_reverse, length_seqZ.
      specialize (Hrow 0%Z ltac:(lia)).
      replace (Z.to_nat (height - 1 - 0)) with (Init.Nat.pred (Z.to_nat height))
        in Hrow by lia.
      exact Hrow.
    + change (inject_Z 0) with 0. field. exact Hne.
Qed.

Lemma graph_labels_witness :
  exists rows mx mn,
    plot_text_graph town five_t [] five_I []
                    five_phases 80 5 = inr rows /\
    py_max five_I = inr mx /\
    (exists y line, rows !! 0%nat = Some (y, line) /\ y == mx) /\
    (exists y line, last rows = Some (y, line) /\ y == mn).
Proof.
  exists five_rows.
  assert (Hplot : plot_text_graph town five_t [] five_I [] five_phases 80 5
                  = inr five_rows)
    by (vm_compute; reflexivity).
  destruct (graph_labels town five_t [] five_I []
              five_phases 80 5 _ Hplot)
    as (mx & mn & Hmx & _ & _ & Htop & Hbot); [lia |].
  exists mx, mn. split; [exact Hplot |]. split; [exact Hmx |].
  split; assumption.
Defined.

(** ** The printed summary *)

Lemma py_slice_inside {A : Type} (a b : Z) (l : list A) :
  (0 <= a <= b)%Z -> (b <= Z.of_nat (length l))%Z ->
  py_slice a b l = take (Z.to_nat (b - a)) (drop (Z.to_nat a) l).
Proof.
  intros Hab Hb. unfold py_slice, slice_bound.
  destruct (Z.ltb_spec a 0); [lia |]. destruct (Z.ltb_spec b 0); [lia |].
  rewrite !Z.min_r by lia. reflexivity.
Qed.

Lemma py_index_inside {A : Type} (l : list A) (i : Z) (x : A) :
  (0 <= i)%Z -> l !! Z.to_nat i = Some x -> py_index l i = inr x.
Proof.
  intros Hi Hx. unfold py_index.
  destruct (Z.ltb_spec i 0); [lia |]. destruct (Z.ltb_spec i 0); [lia |].
  rewrite Hx. reflexivity.
Qed.

Lemma py_index_last {A : Type} (l : list A) :
  l <> [] -> exists x, last l = Some x /\ py_index l (-1) = inr x.
Proof.
  intros Hl.
  destruct (last l) as [x|] eqn:Hlast; [| apply last_None in Hlast; contradiction].
  exists x. split; [reflexivity |].
  assert (Hlen : (0 < length l)%nat) by (destruct l; [contradiction | simpl; lia]).
  unfold py_index. simpl.
  destruct (Z.ltb_spec (Z.of_nat (length l) + -1) 0); [lia |].
  rewrite last_lookup in Hlast.
  replace (Z.to_nat (Z.of_nat (length l) + -1)) with (Init.Nat.pred (length l))
    by lia.
  rewrite Hlast. reflexivity.
Qed.

Lemma py_index_empty {A : Type} : py_index (@nil A) (-1) = inl IndexError.
Proof. reflexivity. Qed.

Lemma py_list_index_first (l : list Q) (x : Q) :
  x ∈ l ->
  exists (i : nat) (y : Q),
    py_list_index l x = inr (Z.of_nat i) /\
    l !! i = Some y /\ y == x /\
    forall j z, (j < i)%nat -> l !! j = Some z -> ~ z == x.
Proof.
  induction l as [|y l IH]; intros Hin; [apply elem_of_nil in Hin; contradiction |].
  simpl. destruct (Qeq_bool y x) eqn:E.
  - exists 0%nat, y. apply Qeq_bool_iff in E.
    repeat split; [exact E | intros j z Hj; lia].
  - assert (Hne : ~ y == x).
    { intros Heq. apply Qeq_bool_iff in Heq. congruence. }
    apply elem_of_cons in Hin. destruct Hin as [-> | Hin].
    { exfalso. apply Hne. reflexivity. }
    destruct (IH Hin) as (i & y' & Hi & Hy' & Heq & Hfirst).
    exists (S i), y'. rewrite Hi. simpl.
    split; [f_equal; lia |]. split; [exact Hy' |]. split; [exact Heq |].
    intros j z Hj Hz. destruct j as [|j].
    + simpl in Hz. injection Hz as <-. exact Hne.
    + simpl in Hz. apply (Hfirst j z); [lia | exact Hz].
Qed.

(** One pass over a cycle that lies within the time series. *)
Lemma cycle_summary_ok (t I : list Q) (cycle_steps cycle : Z) :
  (1 <= cycle_steps)%Z -> (0 <= cycle)%Z ->
  ((cycle + 1) * cycle_steps <= Z.of_nat (length t))%Z ->
  if decide ((cycle + 1) * cycle_steps <= Z.of_nat (length I))%Z then
    exists mx en,
      cycle_summary t I cycle_steps cycle = inr [((cycle + 1)%Z, mx, en)] /\
      I !! Z.to_nat ((cycle + 1) * cycle_steps - 1) = Some en /\
      mx ∈ take (Z.to_nat cycle_steps) (drop (Z.to_nat (cycle * cycle_steps)) I) /\
      forall y,
        y ∈ take (Z.to_nat cycle_steps) (drop (Z.to_nat (cycle * cycle_steps)) I) ->
        y <= mx
  else cycle_summary t I cycle_steps cycle = inr [].
Proof.
  intros Hcs Hc Hend. unfold cycle_summary.
  rewrite Z.min_l by exact Hend.
  destruct (decide _) as [HI | HI].
  - destruct (Z.leb_spec ((cycle + 1) * cycle_steps) (Z.of_nat (length I)));
      [| lia].
    rewrite py_slice_inside by nia.
    replace ((cycle + 1) * cycle_steps - cycle * cycle_steps)%Z
      with cycle_steps by lia.
    set (seg := take (Z.to_nat cycle_steps)
                  (drop (Z.to_nat (cycle * cycle_steps)) I)).
    assert (Hseg : seg <> []).
    { intros Hnil. apply (f_equal length) in Hnil.
      unfold seg in Hnil. rewrite length_take, length_drop in Hnil.
      simpl in Hnil. nia. }
    destruct (py_max_nonempty seg Hseg) as [mx Hmx]. rewrite Hmx. simpl.
    destruct (Z.ltb_spec ((cycle + 1) * cycle_steps - 1) (Z.of_nat (length I)));
      [| lia].
    assert (Hen : exists en,
               I !! Z.to_nat ((cycle + 1) * cycle_steps - 1) = Some en).
    { apply lookup_lt_is_Some. nia. }
    destruct Hen as [en Hen].
    rewrite (py_index_inside I _ en) by (try exact Hen; nia). simpl.
    exists mx, en. split; [reflexivity |]. split; [exact Hen |].
    apply py_max_spec, Hmx.
  - destruct (Z.leb_spec ((cycle + 1) * cycle_steps) (Z.of_nat (length I)));
      [lia | reflexivity].
Qed.

Lemma cycle_summaries_ok (t I : list Q) (cycle_steps : Z) (cycles : list Z) :
  (1 <= cycle_steps)%Z ->
  Forall (fun c => (0 <= c)%Z /\
                   ((c + 1) * cycle_steps <= Z.of_nat (length t))%Z) cycles ->
  exists reports,
    cycle_summaries t I cycle_steps cycles = inr reports /\
    (length reports <= length cycles)%nat /\
    ((length t <= length I)%nat -> length reports = length cycles) /\
    Forall (report_ok t I cycle_steps) reports.
Proof.
  intros Hcs. induction 1 as [|c cycles [Hc Hend] _ IH]; simpl.
  - exists []. split; [reflexivity |]. split; [simpl; lia |].
    split; [intros _; reflexivity | constructor].
  - destruct IH as (rest & -> & Hlen & Hfull & Hok).
    pose proof (cycle_summary_ok t I cycle_steps c Hcs Hc Hend) as Hone.
    destruct (decide _) as [HI | HI].
    + destruct Hone as (mx & en & -> & Hen & Hin & Hmax). simpl.
      eexists. split; [reflexivity |]. simpl.
      split; [lia |]. split; [intros Hl; rewrite Hfull by exact Hl; reflexivity |].
      constructor; [| exact Hok].
      unfold report_ok. simpl.
      replace (c + 1 - 1)%Z with c by lia.
      repeat split; try assumption; lia.
    + rewrite Hone. simpl.
      eexists. split; [reflexivity |].
      split; [lia |]. split; [intros Hl; lia | exact Hok].
Qed.

Lemma print_results_cycles_run (self : HammerDanceModel)
    (t S I R : list Q) (phases : list phase) (hammer_days dance_days : Q) :
  let cycle_steps := py_int ((hammer_days + dance_days) / (1 # 10)) in
  let cycles := (Z.of_nat (length t) / cycle_steps)%Z in
  cycle_steps <> 0%Z ->
  exists reports,
    cycle_summaries t I cycle_steps (seqZ 0 cycles) = inr reports /\
    print_results self t S I R phases hammer_days dance_days
      = (stats ← overall_statistics self t S I R; inr (reports, stats)) /\
    (length reports <= Z.to_nat cycles)%nat /\
    ((length t <= length I)%nat -> length reports = Z.to_nat cycles) /\
    Forall (report_ok t I cycle_steps) reports.
Proof.
  intros cycle_steps cycles Hnz.
  assert (Hgoal : exists reports,
            cycle_summaries t I cycle_steps (seqZ 0 cycles) = inr reports /\
            (length reports <= Z.to_nat cycles)%nat /\
            ((length t <= length I)%nat -> length reports = Z.to_nat cycles) /\
            Forall (report_ok t I cycle_steps) reports).
  { destruct (Z.lt_ge_cases cycle_steps 0) as [Hneg | Hpos].
    - assert (Hc : (cycles <= 0)%Z).
      { unfold cycles.
        pose proof (Z.div_mod (Z.of_nat (length t)) cycle_steps Hnz).
        pose proof (Z.mod_neg_bound (Z.of_nat (length t)) cycle_steps Hneg).
        nia. }
      rewrite seqZ_nil by exact Hc. exists [].
      split; [reflexivity |]. split; [simpl; lia |].
      split; [intros _; simpl; lia | constructor].
    - assert (Hcs : (1 <= cycle_steps)%Z) by lia.
      destruct (cycle_summaries_ok t I cycle_steps (seqZ 0 cycles) Hcs)
        as (reports & Hr & Hlen & Hfull & Hok).
      + apply Forall_forall. intros c Hc.
        apply elem_of_seqZ in Hc.
        pose proof (Z.mul_div_le (Z.of_nat (length t)) cycle_steps ltac:(lia)).
        fold cycles in H. split; [lia | nia].
      + rewrite length_seqZ in Hlen, Hfull.
        exists reports. repeat split; assumption. }
  destruct Hgoal as (reports & Hr & Hrest).
  exists reports. split; [exact Hr |]. split; [| exact Hrest].
  unfold print_results, py_floordiv. fold cycle_steps.
  destruct (Z.eqb_spec cycle_steps 0); [contradiction |]. simpl.
  fold cycles. rewrite Hr. reflexivity.
Qed.

(** X17: [print_results] raises ZeroDivisionError when the cycle length gives
    zero steps (|hammer_days + dance_days| < 0.1).  Otherwise the loop over the
    cycles never raises, and each cycle it reports lies wholly inside the
    infected series: the reported end value is I[num*cycle_steps - 1] (the
    fallback I[-1] of line 174 is never taken) and the reported maximum is the
    largest value of that cycle's stretch.  When I is at least as long as t,
    every one of the len(t) // cycle_steps cycles is reported. *)
Theorem print_results_cycles (self : HammerDanceModel)
    (t S I R : list Q) (phases : list phase) (hammer_days dance_days : Q) :
  let cycle_steps := py_int ((hammer_days + dance_days) / (1 # 10)) in
  let cycles := (Z.of_nat (length t) / cycle_steps)%Z in
  (cycle_steps = 0%Z ->
   print_results self t S I R phases hammer_days dance_days
     = inl ZeroDivisionError) /\
  (cycle_steps <> 0%Z ->
   exists reports,
     cycle_summaries t I cycle_steps (seqZ 0 cycles) = inr reports /\
     print_results self t S I R phases hammer_days dance_days
       = (stats ← overall_statistics self t S I R; inr (reports, stats)) /\
     (length reports <= Z.to_nat cycles)%nat /\
     ((length t <= length I)%nat -> length reports = Z.to_nat cycles) /\
     Forall (report_ok t I cycle_steps) reports).
Proof.
  intros cycle_steps cycles. split.
  - intros Hz. unfold print_results. fold cycle_steps. rewrite Hz. reflexivity.
  - apply print_results_cycles_run.
Qed.

Lemma print_results_cycles_witness :
  exists reports,
    cycle_summaries five_t five_I 2 (seqZ 0 2) = inr reports /\
    length reports = 2%nat /\
    Forall (report_ok five_t five_I 2) reports.
Proof.
  destruct (proj2 (print_results_cycles town five_t five_t five_I five_t
                     five_phases (1#10) (1#10)))
    as (reports & Hr & _ & _ & Hfull & Hok); [discriminate |].
  exists reports. split; [exact Hr |]. split; [| exact Hok].
  apply Hfull. reflexivity.
Defined.

Lemma overall_statistics_returns (self : HammerDanceModel) (t S I R : list Q) :
  I <> [] -> S <> [] -> R <> [] -> (length I <= length t)%nat ->
  ~ N self == 0 ->
  exists st,
    overall_statistics self t S I R = inr st /\
    stat_max_I st ∈ I /\
    (forall y, y ∈ I -> y <= stat_max_I st) /\
    (exists (k : nat) (y : Q),
        I !! k = Some y /\ y == stat_max_I st /\
        t !! k = Some (stat_max_I_day st) /\
        forall j z, (j < k)%nat -> I !! j = Some z -> ~ z == stat_max_I st) /\
    last S = Some (stat_final_S st) /\
    last I = Some (stat_final_I st) /\
    last R = Some (stat_final_R st) /\
    stat_max_I_ratio st == stat_max_I st / N self /\
    stat_final_S_ratio st == stat_final_S st / N self /\
    stat_final_I_ratio st == stat_final_I st / N self /\
    stat_final_R_ratio st == stat_final_R st / N self.
Proof.
  intros HI HS HR Hlen HN. unfold overall_statistics.
  destruct (py_max_nonempty I HI) as [mx Hmx]. rewrite Hmx. simpl.
  destruct (py_max_spec I mx Hmx) as [Hin Hmax].
  destruct (py_list_index_first I mx Hin) as (k & y & Hk & Hy & Heq & Hfirst).
  rewrite Hk. simpl.
  assert (Ht : exists d, t !! k = Some d).
  { apply lookup_lt_is_Some. apply lookup_lt_Some in Hy. lia. }
  destruct Ht as [d Ht].
  rewrite (py_index_inside t (Z.of_nat k) d)
    by (try lia; rewrite Nat2Z.id; exact Ht).
  simpl.
  destruct (py_index_last S HS) as (fS & HlS & ->).
  destruct (py_index_last I HI) as (fI & HlI & ->).
  destruct (py_index_last R HR) as (fR & HlR & ->). simpl.
  rewrite !py_truediv_ok by exact HN. simpl.
  eexists. split; [reflexivity |]. simpl.
  split; [exact Hin |]. split; [exact Hmax |].
  split; [exists k, y; repeat split; assumption |].
  repeat split; assumption || reflexivity.
Qed.

(** X18: the overall statistics of [print_results] raise ValueError on an
    empty infected series.  With non-empty S, I and R, a time series at least
    as long as I, and N <> 0 they are computed: the maximum is the largest
    infected count, its day is the time at the first index holding that count,
    the final values are the last entries of S, I and R, and each ratio is the
    value divided by N. *)
Theorem overall_statistics_spec (self : HammerDanceModel) (t S I R : list Q) :
  (I = [] -> overall_statistics self t S I R = inl ValueError) /\
  (I <> [] -> S <> [] -> R <> [] -> (length I <= length t)%nat ->
   ~ N self == 0 ->
   exists st,
     overall_statistics self t S I R = inr st /\
     stat_max_I st ∈ I /\
     (forall y, y ∈ I -> y <= stat_max_I st) /\
     (exists (k : nat) (y : Q),
         I !! k = Some y /\ y == stat_max_I st /\
         t !! k = Some (stat_max_I_day st) /\
         forall j z, (j < k)%nat -> I !! j = Some z -> ~ z == stat_max_I st) /\
     last S = Some (stat_final_S st) /\
     last I = Some (stat_final_I st) /\
     last R = Some (stat_final_R st) /\
     stat_max_I_ratio st == stat_max_I st / N self /\
     stat_final_S_ratio st == stat_final_S st / N self /\
     stat_final_I_ratio st == stat_final_I st / N self /\
     stat_final_R_ratio st == stat_final_R st / N self).
Proof.
  split; [intros ->; reflexivity | apply overall_statistics_returns].
Qed.

Lemma simulate_returns_population (self : HammerDanceModel)
    (max_days hammer_threshold dance_threshold hammer_duration dance_duration dt : Q)
    (st : locals) :
  final_locals self max_days hammer_threshold dance_threshold
               hammer_duration dance_duration dt = Some st ->
  t_list st <> [] -> ~ N self == 0.
Proof.
  intros Hf Hne. apply final_locals_inv in Hf. destruct Hf as (steps & _ & Hl).
  destruct (for_loop_entry _ _ _ _ _ _ Hl) as (m & _ & Hrun & _).
  destruct m as [|m].
  - inversion Hrun; subst st. contradiction.
  - destruct (run_to_inv _ _ _ _ _ _ Hrun) as (a & _ & _ & Hb).
    apply loop_body_spec in Hb. destruct Hb as (He & _).
    eapply euler_step_inv, He.
Qed.

(** X19: on the series a simulation returns, [print_results] (with a cycle
    of at least one step) and [plot_text_graph] (with width <> 0 and
    height <> 1) raise ValueError when the simulation recorded nothing, and do
    not raise when it recorded at least one step. *)
Theorem reports_on_simulation_output (self : HammerDanceModel)
    (max_days hammer_threshold dance_threshold hammer_duration dance_duration dt : Q)
    (ts Ss Is Rs : list Q) (ps : list phase) (tps : list transition_point)
    (hammer_days dance_days : Q) (width height : Z) :
  simulate_dynamic_hammer_dance self max_days hammer_threshold dance_threshold
                                hammer_duration dance_duration dt
    = Some (ts, Ss, Is, Rs, ps, tps) ->
  py_int ((hammer_days + dance_days) / (1 # 10)) <> 0%Z ->
  width <> 0%Z -> height <> 1%Z ->
  (ts = [] ->
   print_results self ts Ss Is Rs ps hammer_days dance_days = inl ValueError /\
   plot_text_graph self ts Ss Is Rs ps width height = inl ValueError) /\
  (ts <> [] ->
   (exists out,
       print_results self ts Ss Is Rs ps hammer_days dance_days = inr out) /\
   (exists rows,
       plot_text_graph self ts Ss Is Rs ps width height = inr rows /\
       length rows = Z.to_nat height)).
Proof.
  intros Hsim Hcs Hw Hh.
  apply simulate_inv in Hsim. destruct Hsim as (st & Hf & Hr).
  injection Hr as -> -> -> -> -> ->.
  pose proof Hf as Hf'.
  apply final_locals_inv in Hf'. destruct Hf' as (steps & _ & Hl).
  destruct (for_loop_entry _ _ _ _ _ _ Hl) as (m & _ & Hrun & _).
  pose proof (run_to_lengths _ _ _ _ _ _ Hrun) as (Lt & LS & LI & LR & _).
  assert (Hempty : forall (l : list Q), length l = m -> t_list st = [] -> l = []).
  { intros l Hlen Hnil. rewrite Hnil in Lt. simpl in Lt. subst m.
    destruct l; [reflexivity | discriminate]. }
  assert (Hfull : forall (l : list Q), length l = m -> t_list st <> [] -> l <> []).
  { intros l Hlen Hne ->. simpl in Hlen. subst m.
    destruct (t_list st); [contradiction | discriminate]. }
  destruct (print_results_cycles_run self (t_list st) (S_list st) (I_list st)
              (R_list st) (phase_list st) hammer_days dance_days Hcs)
    as (reports & _ & Hpr & _).
  split.
  - intros Hnil. pose proof (Hempty _ LI Hnil) as HI.
    split.
    + rewrite Hpr, HI. reflexivity.
    + rewrite HI. reflexivity.
  - intros Hne. split.
    + destruct (overall_statistics_returns self (t_list st) (S_list st)
                  (I_list st) (R_list st)) as (stats & Hs & _);
        [apply (Hfull _ LI Hne) | apply (Hfull _ LS Hne) | apply (Hfull _ LR Hne)
        | lia | apply (simulate_returns_population _ _ _ _ _ _ _ _ Hf Hne) |].
      rewrite Hpr, Hs. simpl. eauto.
    + apply plot_text_graph_returns;
        [apply (Hfull _ LI Hne) | exact Hw | exact Hh].
Qed.

Lemma reports_on_simulation_output_witness :
  simulate_dynamic_hammer_dance town 2 50 20 30 20 1 = town_two_days /\
  exists ts Ss Is Rs ps tps,
    town_two_days = Some (ts, Ss, Is, Rs, ps, tps) /\
    (exists out, print_results town ts Ss Is Rs ps 30 20 = inr out) /\
    (exists rows,
        plot_text_graph town ts Ss Is Rs ps 80 20 = inr rows /\
        length rows = 20%nat).
Proof.
  assert (H : simulate_dynamic_hammer_dance town 2 50 20 30 20 1 = town_two_days)
    by (vm_compute; reflexivity).
  split; [exact H |].
  eexists _, _, _, _, _, _. split; [reflexivity |].
  apply (proj2 (reports_on_simulation_output town 2 50 20 30 20 1
                  _ _ _ _ _ _ 30 20 80 20 H ltac:(discriminate)
                  ltac:(discriminate) ltac:(discriminate))).
  discriminate.
Defined.

(** ** The exports *)

Lemma write_rows_spec {A : Type} (row_at : Z -> exception + A) (indices : list Z) :
  forall rows e,
    write_rows row_at indices = (rows, e) ->
    (length rows <= length indices)%nat /\
    (e = None <-> length rows = length indices) /\
    (forall k r, rows !! k = Some r ->
       exists i, indices !! k = Some i /\ row_at i = inr r) /\
    (forall x, e = Some x ->
       exists i, indices !! length rows = Some i /\ row_at i = inl x).
Proof.
  induction indices as [|i indices IH]; intros rows e Hw; simpl in Hw.
  - injection Hw as <- <-. simpl. split; [lia |]. split; [tauto |].
    split; [intros k r Hk; rewrite lookup_nil in Hk; discriminate | discriminate].
  - destruct (row_at i) as [x|r] eqn:Hi.
    + injection Hw as <- <-. simpl. split; [lia |].
      split; [split; [discriminate | lia] |].
      split; [intros k r Hk; rewrite lookup_nil in Hk; discriminate |].
      intros y [= <-]. exists i. split; [reflexivity | exact Hi].
    + destruct (write_rows row_at indices) as [rows' e'] eqn:Hrest.
      injection Hw as <- <-.
      destruct (IH rows' e' eq_refl) as (Hlen & Hnone & Hrows & Herr).
      simpl. split; [lia |]. split; [rewrite Hnone; lia |].
      split.
      * intros [|k] r' Hk; simpl in Hk.
        -- injection Hk as <-. exists i. split; [reflexivity | exact Hi].
        -- apply Hrows, Hk.
      * intros x Hx. apply Herr, Hx.
Qed.

Lemma py_index_nat {A : Type} (l : list A) (k : nat) :
  py_index l (Z.of_nat k)
    = match l !! k with Some x => inr x | None => inl IndexError end.
Proof.
  unfold py_index.
  destruct (Z.ltb_spec (Z.of_nat k) 0); [lia |].
  destruct (Z.ltb_spec (Z.of_nat k) 0); [lia |].
  rewrite Nat2Z.id. reflexivity.
Qed.

Lemma excel_row_at_nat (t S I R : list Q) (phases : list phase) (k : nat) :
  excel_row_at t S I R phases (Z.of_nat k)
    = match t !! k, S !! k, I !! k, R !! k, phases !! k with
      | Some tk, Some Sk, Some Ik, Some Rk, Some pk => inr (tk, Sk, Ik, Rk, pk)
      | _, _, _, _, _ => inl IndexError
      end.
Proof.
  unfold excel_row_at. rewrite !py_index_nat.
  destruct (t !! k); [| reflexivity]. simpl.
  destruct (S !! k); [| reflexivity]. simpl.
  destruct (I !! k); [| reflexivity]. simpl.
  destruct (R !! k); [| reflexivity]. simpl.
  destruct (phases !! k); reflexivity.
Qed.

Lemma csv_row_at_nat (self : HammerDanceModel)
    (t S I R : list Q) (phases : list phase) (k : nat) :
  ~ N self == 0 ->
  csv_row_at self t S I R phases (Z.of_nat k)
    = match t !! k, S !! k, I !! k, R !! k, phases !! k with
      | Some tk, Some Sk, Some Ik, Some Rk, Some pk =>
          inr {| csv_t := tk; csv_S := Sk; csv_I := Ik; csv_R := Rk;
                 csv_phase := pk;
                 csv_s_ratio := Sk / N self; csv_i_ratio := Ik / N self;
                 csv_r_ratio := Rk / N self |}
      | _, _, _, _, _ => inl IndexError
      end.
Proof.
  intros HN. unfold csv_row_at. rewrite !py_index_nat.
  destruct (S !! k); simpl;
    [rewrite py_truediv_ok by exact HN; simpl
    | destruct (t !! k); reflexivity].
  destruct (I !! k); simpl;
    [rewrite py_truediv_ok by exact HN; simpl
    | destruct (t !! k); reflexivity].
  destruct (R !! k); simpl;
    [rewrite py_truediv_ok by exact HN; simpl
    | destruct (t !! k); reflexivity].
  destruct (t !! k); simpl; [| reflexivity].
  destruct (phases !! k); reflexivity.
Qed.

Lemma seqZ_index (n : Z) (k : nat) (i : Z) :
  seqZ 0 n !! k = Some i -> i = Z.of_nat k /\ (Z.of_nat k < n)%Z.
Proof.
  intros H.
  destruct (Z.lt_ge_cases (Z.of_nat k) n) as [Hlt | Hge].
  - rewrite lookup_seqZ_lt in H by exact Hlt. injection H as <-. lia.
  - rewrite lookup_seqZ_ge in H by exact Hge. discriminate.
Qed.

(** Both exports, when every list is at least as long as t. *)
Lemma exports_complete_run (self : HammerDanceModel)
    (t S I R : list Q) (phases : list phase) :
  (length t <= length S)%nat -> (length t <= length I)%nat ->
  (length t <= length R)%nat -> (length t <= length phases)%nat ->
  (exists rows,
      create_excel_data self t S I R phases = (rows, None) /\
      length rows = length t /\
      forall k tk Sk Ik Rk pk,
        rows !! k = Some (tk, Sk, Ik, Rk, pk) ->
        t !! k = Some tk /\ S !! k = Some Sk /\ I !! k = Some Ik /\
        R !! k = Some Rk /\ phases !! k = Some pk) /\
  (~ N self == 0 ->
   exists rows,
     save_csv_results self t S I R phases = (rows, None) /\
     length rows = length t /\
     forall k r,
       rows !! k = Some r ->
       t !! k = Some (csv_t r) /\ S !! k = Some (csv_S r) /\
       I !! k = Some (csv_I r) /\ R !! k = Some (csv_R r) /\
       phases !! k = Some (csv_phase r) /\
       csv_s_ratio r == csv_S r / N self /\
       csv_i_ratio r == csv_I r / N self /\
       csv_r_ratio r == csv_R r / N self).
Proof.
  intros LS LI LR Lp.
  assert (Hall : forall k, (k < length t)%nat ->
            exists tk Sk Ik Rk pk,
              t !! k = Some tk /\ S !! k = Some Sk /\ I !! k = Some Ik /\
              R !! k = Some Rk /\ phases !! k = Some pk).
  { intros k Hk.
    destruct (lookup_lt_is_Some_2 t k Hk) as [tk Ht].
    destruct (lookup_lt_is_Some_2 S k ltac:(lia)) as [Sk HS].
    destruct (lookup_lt_is_Some_2 I k ltac:(lia)) as [Ik HI].
    destruct (lookup_lt_is_Some_2 R k ltac:(lia)) as [Rk HR].
    destruct (lookup_lt_is_Some_2 phases k ltac:(lia)) as [pk Hp].
    exists tk, Sk, Ik, Rk, pk. repeat split; assumption. }
  split.
  - unfold create_excel_data.
    destruct (write_rows _ _) as [rows e] eqn:Hw.
    destruct (write_rows_spec _ _ _ _ Hw) as (Hlen & Hnone & Hrows & Herr).
    rewrite length_seqZ, Nat2Z.id in Hlen, Hnone.
    assert (He : e = None).
    { destruct e as [x|]; [| reflexivity]. exfalso.
      destruct (Herr x eq_refl) as (i & Hi & Hrow).
      apply seqZ_index in Hi. destruct Hi as [-> Hi].
      rewrite excel_row_at_nat in Hrow.
      destruct (Hall (length rows) ltac:(lia))
        as (tk & Sk & Ik & Rk & pk & Ht & HS & HI & HR & Hp).
      rewrite Ht, HS, HI, HR, Hp in Hrow. discriminate. }
    subst e. exists rows. split; [reflexivity |].
    split; [apply Hnone; reflexivity |].
    intros k tk Sk Ik Rk pk Hk.
    destruct (Hrows _ _ Hk) as (i & Hi & Hrow).
    apply seqZ_index in Hi. destruct Hi as [-> Hi].
    rewrite excel_row_at_nat in Hrow.
    destruct (t !! k), (S !! k), (I !! k), (R !! k), (phases !! k);
      try discriminate.
    injection Hrow as -> -> -> -> ->. repeat split; reflexivity.
  - intros HN. unfold save_csv_results.
    destruct (write_rows _ _) as [rows e] eqn:Hw.
    destruct (write_rows_spec _ _ _ _ Hw) as (Hlen & Hnone & Hrows & Herr).
    rewrite length_seqZ, Nat2Z.id in Hlen, Hnone.
    assert (He : e = None).
    { destruct e as [x|]; [| reflexivity]. exfalso.
      destruct (Herr x eq_refl) as (i & Hi & Hrow).
      apply seqZ_index in Hi. destruct Hi as [-> Hi].
      rewrite csv_row_at_nat in Hrow by exact HN.
      destruct (Hall (length rows) ltac:(lia))
        as (tk & Sk & Ik & Rk & pk & Ht & HS & HI & HR & Hp).
      rewrite Ht, HS, HI, HR, Hp in Hrow. discriminate. }
    subst e. exists rows. split; [reflexivity |].
    split; [apply Hnone; reflexivity |].
    intros k r Hk.
    destruct (Hrows _ _ Hk) as (i & Hi & Hrow).
    apply seqZ_index in Hi. destruct Hi as [-> Hi].
    rewrite csv_row_at_nat in Hrow by exact HN.
    destruct (t !! k), (S !! k), (I !! k), (R !! k), (phases !! k);
      try discriminate.
    injection Hrow as <-. simpl. repeat split; reflexivity.
Qed.

(** X20: when S, I, R and phases are at least as long as t,
    [create_excel_data] writes exactly one line per entry of t, in order, each
    holding the entries of that index, and reports no error; with N <> 0 so
    does [save_csv_results], whose three ratios are the values divided by N. *)
Theorem exports_complete (self : HammerDanceModel)
    (t S I R : list Q) (phases : list phase) :
  (length t <= length S)%nat -> (length t <= length I)%nat ->
  (length t <= length R)%nat -> (length t <= length phases)%nat ->
  (exists rows,
      create_excel_data self t S I R phases = (rows, None) /\
      length rows = length t /\
      forall k tk Sk Ik Rk pk,
        rows !! k = Some (tk, Sk, Ik, Rk, pk) ->
        t !! k = Some tk /\ S !! k = Some Sk /\ I !! k = Some Ik /\
        R !! k = Some Rk /\ phases !! k = Some pk) /\
  (~ N self == 0 ->
   exists rows,
     save_csv_results self t S I R phases = (rows, None) /\
     length rows = length t /\
     forall k r,
       rows !! k = Some r ->
       t !! k = Some (csv_t r) /\ S !! k = Some (csv_S r) /\
       I !! k = Some (csv_I r) /\ R !! k = Some (csv_R r) /\
       phases !! k = Some (csv_phase r) /\
       csv_s_ratio r == csv_S r / N self /\
       csv_i_ratio r == csv_I r / N self /\
       csv_r_ratio r == csv_R r / N self).
Proof. apply exports_complete_run. Qed.

Lemma exports_complete_witness :
  exists rows,
    create_excel_data town five_t five_t five_I five_t five_phases
      = (rows, None) /\
    length rows = length five_t.
Proof.
  destruct (proj1 (exports_complete town five_t five_t five_I five_t five_phases
                     ltac:(reflexivity) ltac:(reflexivity)
                     ltac:(reflexivity) ltac:(reflexivity)))
    as (rows & Hr & Hlen & _).
  exists rows. split; assumption.
Defined.

(** X21: an export never writes more lines than t has entries, each line it
    writes is the line of its index, and it reports an exception exactly when
    it wrote fewer: the lines before the first index whose line could not be
    formed are kept.  In particular, with N = 0 and a non-empty t
    [save_csv_results] writes no line at all and reports an error. *)
Theorem exports_partial (self : HammerDanceModel)
    (t S I R : list Q) (phases : list phase) :
  (forall rows e,
      save_csv_results self t S I R phases = (rows, e) ->
      (length rows <= length t)%nat /\
      (e = None <-> length rows = length t) /\
      (forall k r, rows !! k = Some r ->
         csv_row_at self t S I R phases (Z.of_nat k) = inr r) /\
      (forall x, e = Some x ->
         csv_row_at self t S I R phases (Z.of_nat (length rows)) = inl x)) /\
  (forall rows e,
      create_excel_data self t S I R phases = (rows, e) ->
      (length rows <= length t)%nat /\
      (e = None <-> length rows = length t) /\
      (forall k r, rows !! k = Some r ->
         excel_row_at t S I R phases (Z.of_nat k) = inr r) /\
      (forall x, e = Some x ->
         excel_row_at t S I R phases (Z.of_nat (length rows)) = inl x)) /\
  (N self == 0 -> t <> [] ->
   exists x, save_csv_results self t S I R phases = ([], Some x)).
Proof.
  split; [| split].
  - intros rows e Hw. unfold save_csv_results in Hw.
    destruct (write_rows_spec _ _ _ _ Hw) as (Hlen & Hnone & Hrows & Herr).
    rewrite length_seqZ, Nat2Z.id in Hlen, Hnone.
    split; [exact Hlen |]. split; [exact Hnone |]. split.
    + intros k r Hk. destruct (Hrows _ _ Hk) as (i & Hi & Hrow).
      apply seqZ_index in Hi. destruct Hi as [-> _]. exact Hrow.
    + intros x Hx. destruct (Herr _ Hx) as (i & Hi & Hrow).
      apply seqZ_index in Hi. destruct Hi as [-> _]. exact Hrow.
  - intros rows e Hw. unfold create_excel_data in Hw.
    destruct (write_rows_spec _ _ _ _ Hw) as (Hlen & Hnone & Hrows & Herr).
    rewrite length_seqZ, Nat2Z.id in Hlen, Hnone.
    split; [exact Hlen |]. split; [exact Hnone |]. split.
    + intros k r Hk. destruct (Hrows _ _ Hk) as (i & Hi & Hrow).
      apply seqZ_index in Hi. destruct Hi as [-> _]. exact Hrow.
    + intros x Hx. destruct (Herr _ Hx) as (i & Hi & Hrow).
      apply seqZ_index in Hi. destruct Hi as [-> _]. exact Hrow.
  - intros HN Ht. unfold save_csv_results.
    destruct t as [|t0 t']; [contradiction |].
    rewrite seqZ_cons by (simpl; lia). simpl.
    assert (Hrow : exists x,
              csv_row_at self (t0 :: t') S I R phases 0 = inl x).
    { unfold csv_row_at. destruct (py_index S 0) as [x|Si]; simpl; [eauto |].
      unfold py_truediv. apply Qeq_bool_iff in HN. rewrite HN. simpl. eauto. }
    destruct Hrow as [x ->]. exists x. reflexivity.
Qed.

Lemma exports_partial_witness :
  create_excel_data town five_t five_t [10; 20] five_t five_phases
    = ([(0, 0, 10, 0, dance); (1, 1, 20, 1, dance)], Some IndexError) /\
  (Some IndexError = None
     <-> length [(0, 0, 10, 0, dance); (1, 1, 20, 1, dance)] = length five_t).
Proof.
  assert (H : create_excel_data town five_t five_t [10; 20] five_t five_phases
              = ([(0, 0, 10, 0, dance); (1, 1, 20, 1, dance)], Some IndexError))
    by reflexivity.
  split; [exact H |].
  exact (proj1 (proj2 (proj1 (proj2 (exports_partial town five_t five_t
                                       [10; 20] five_t five_phases)) _ _ H))).
Defined.

(** ** Two readings of the total infection rate *)



